(** * xpra: the per-client session source ([ClientConnection])

    A shallow embedding of [xpra/server/source/client_connection.py]:
    the two-tier packet scheduler, the bandwidth allocator, the av-sync
    delay, the idle / grace timers, capability parsing of the desktop
    size and the notification gate.

    Python integers are [Z]; [//] on integers is [Z.div] (both round
    towards minus infinity) except that Python raises on a zero divisor,
    which the model makes explicit.  Dictionaries are [gmap]s, lists and
    deques are [list]s, [None]-able values are [option]s.  The object's
    attributes are the fields of one record; an assignment
    [self.f = v] is [assign_f v s]. *)

From stdpp Require Import gmap strings list.
From coqutil Require Import Datatypes.RecordSetters.
Local Open Scope Z_scope.

(** ** Module level constants, read from the environment at import *)

Record Env := {
  GRACE_PERCENT : Z;           (* envint("XPRA_GRACE_PERCENT", 90) *)
  AV_SYNC_DELTA : Z;           (* envint("XPRA_AV_SYNC_DELTA", 0) *)
  BANDWIDTH_DETECTION : bool;  (* envbool("XPRA_BANDWIDTH_DETECTION", True) *)
}.

Definition default_env : Env :=
  {| GRACE_PERCENT := 90; AV_SYNC_DELTA := 0; BANDWIDTH_DETECTION := true |}.

(** ** Data *)

(** Callables handed to the session are opaque; a token identifies one. *)
Definition Callback := nat.

(** One positional argument of a packet. *)
Inductive Arg :=
  | AInt (z : Z)
  | AStr (s : string)
  | AObj (token : nat).

(** [*parts]: the packet type followed by its arguments. *)
Definition Parts := list Arg.

(** An entry of [ordinary_packets]:
    [(parts, synchronous, fail_cb, will_have_more)]. *)
Record OrdinaryEntry := {
  o_parts : Parts;
  o_synchronous : bool;
  o_fail_cb : option Callback;
  o_will_have_more : bool;
}.

(** An entry of [packet_queue]:
    [(packet, _, _, start_send_cb, end_send_cb, fail_cb, will_have_more)]. *)
Record BulkEntry := {
  b_packet : option Parts;
  b_slot1 : Z;
  b_slot2 : Z;
  b_start_send_cb : option Callback;
  b_end_send_cb : option Callback;
  b_fail_cb : option Callback;
  b_will_have_more : bool;
}.

(** The 7-tuple returned by [next_packet]. *)
Record NextPacket := {
  packet : option Parts;
  start_send_cb : option Callback;
  end_send_cb : option Callback;
  fail_cb : option Callback;
  synchronous : bool;
  have_more : bool;
  will_have_more : bool;
}.

(** Keyword arguments of [send]; [None] is an absent key. *)
Record Kwargs := {
  kw_synchronous : option bool;
  kw_will_have_more : option bool;
  kw_fail_cb : option Callback;
}.

Definition no_kwargs : Kwargs :=
  {| kw_synchronous := None; kw_will_have_more := None; kw_fail_cb := None |}.

(** The transport object; only the attribute [parse_hello] writes is kept. *)
Record Protocol := { max_packet_size : Z }.

(** The per-window encoder, as far as this class reads and writes it. *)
Module WS.
Record t := {
  suspended : bool;
  window_dimensions : Z * Z;
  damage_pixels : Z;          (* statistics.get_damage_pixels() *)
  bandwidth_limit : Z;
  av_sync_delay : Z;          (* written by set_av_sync_delay *)
}.

Definition assign_bandwidth_limit (v : Z) (ws : t) : t :=
  {| suspended := suspended ws; window_dimensions := window_dimensions ws;
     damage_pixels := damage_pixels ws; bandwidth_limit := v;
     av_sync_delay := av_sync_delay ws |}.

(** The method [set_av_sync_delay] of a window source. *)
Definition set_av_sync_delay (v : Z) (ws : t) : t :=
  {| suspended := suspended ws; window_dimensions := window_dimensions ws;
     damage_pixels := damage_pixels ws; bandwidth_limit := bandwidth_limit ws;
     av_sync_delay := v |}.
End WS.

(** The bound methods this class registers with [timeout_add]. *)
Inductive TimerCallback := IdleTimedout | IdleGraceTimedout.

(** A pending source of the main loop. *)
Record Timer := {
  timer_id : Z;
  timer_delay : Z;
  timer_cb : TimerCallback;
}.

(** Invocations of the two callbacks received at construction. *)
Inductive Event := IdleTimeoutCb | IdleGraceTimeoutCb.

(** The attributes of a [ClientConnection].  [closed] is [close_event];
    [source_has_more_calls] counts the wake-ups sent to the transport;
    [main_loop] and [next_source_id] stand for the main loop behind
    [timeout_add] / [source_remove], restricted to this object's sources;
    [events] records the calls of [idle_timeout_cb] and
    [idle_grace_timeout_cb]; [avg_congestion_send_speed] is the attribute
    of [statistics] of that name. *)
Record ClientConnection := {
  (* network *)
  closed : bool;
  protocol : option Protocol;
  ordinary_packets : list OrdinaryEntry;
  packet_queue : list BulkEntry;
  encode_work_queue : list (option nat);
  source_has_more_calls : nat;
  (* idle / grace timers *)
  idle_timeout : Z;
  idle_grace_duration : Z;
  idle_timer : option Z;
  idle_grace_timer : option Z;
  main_loop : list Timer;
  next_source_id : Z;
  events : list Event;
  (* bandwidth *)
  server_bandwidth_limit : Z;
  bandwidth_limit : Z;
  soft_bandwidth_limit : Z;
  avg_congestion_send_speed : Z;
  mmap_size : Z;
  window_sources : gmap Z WS.t;
  (* av-sync *)
  av_sync : bool;
  av_sync_delay : Z;
  av_sync_delta : Z;
  av_sync_delay_total : Z;
  (* negotiated features *)
  hello_sent : bool;
  send_notifications : bool;
  suspended : bool;
  notification_callbacks : gmap Z Callback;
  desktop_size : option (Z * Z);
  desktop_mode_size : option (Z * Z);
  desktop_size_unscaled : option (Z * Z);
  file_transfer : bool;
  file_size_limit : Z;
}.

(** ** Assignments

    [assign_f v s] is the object [s] after [self.f = v]: the field [f] holds
    [v] and every other field is as in [s]. *)

Definition assign_closed (v : bool) (s : ClientConnection) : ClientConnection :=
  ltac:(setter ClientConnection bool closed) (λ _, v) s.

Definition assign_protocol (v : option Protocol) (s : ClientConnection) : ClientConnection :=
  ltac:(setter ClientConnection (option Protocol) protocol) (λ _, v) s.

Definition assign_ordinary_packets (v : list OrdinaryEntry) (s : ClientConnection) : ClientConnection :=
  ltac:(setter ClientConnection (list OrdinaryEntry) ordinary_packets) (λ _, v) s.

Definition assign_packet_queue (v : list BulkEntry) (s : ClientConnection) : ClientConnection :=
  ltac:(setter ClientConnection (list BulkEntry) packet_queue) (λ _, v) s.

Definition assign_encode_work_queue (v : list (option nat)) (s : ClientConnection) : ClientConnection :=
  ltac:(setter ClientConnection (list (option nat)) encode_work_queue) (λ _, v) s.

Definition assign_source_has_more_calls (v : nat) (s : ClientConnection) : ClientConnection :=
  ltac:(setter ClientConnection nat source_has_more_calls) (λ _, v) s.

Definition assign_idle_timer (v : option Z) (s : ClientConnection) : ClientConnection :=
  ltac:(setter ClientConnection (option Z) idle_timer) (λ _, v) s.

Definition assign_idle_grace_timer (v : option Z) (s : ClientConnection) : ClientConnection :=
  ltac:(setter ClientConnection (option Z) idle_grace_timer) (λ _, v) s.

Definition assign_main_loop (v : list Timer) (s : ClientConnection) : ClientConnection :=
  ltac:(setter ClientConnection (list Timer) main_loop) (λ _, v) s.

Definition assign_next_source_id (v : Z) (s : ClientConnection) : ClientConnection :=
  ltac:(setter ClientConnection Z next_source_id) (λ _, v) s.

Definition assign_events (v : list Event) (s : ClientConnection) : ClientConnection :=
  ltac:(setter ClientConnection (list Event) events) (λ _, v) s.

Definition assign_bandwidth_limit (v : Z) (s : ClientConnection) : ClientConnection :=
  ltac:(setter ClientConnection Z bandwidth_limit) (λ _, v) s.

Definition assign_soft_bandwidth_limit (v : Z) (s : ClientConnection) : ClientConnection :=
  ltac:(setter ClientConnection Z soft_bandwidth_limit) (λ _, v) s.

Definition assign_avg_congestion_send_speed (v : Z) (s : ClientConnection) : ClientConnection :=
  ltac:(setter ClientConnection Z avg_congestion_send_speed) (λ _, v) s.

Definition assign_window_sources (v : gmap Z WS.t) (s : ClientConnection) : ClientConnection :=
  ltac:(setter ClientConnection (gmap Z WS.t) window_sources) (λ _, v) s.

Definition assign_av_sync_delay (v : Z) (s : ClientConnection) : ClientConnection :=
  ltac:(setter ClientConnection Z av_sync_delay) (λ _, v) s.

Definition assign_av_sync_delta (v : Z) (s : ClientConnection) : ClientConnection :=
  ltac:(setter ClientConnection Z av_sync_delta) (λ _, v) s.

Definition assign_av_sync_delay_total (v : Z) (s : ClientConnection) : ClientConnection :=
  ltac:(setter ClientConnection Z av_sync_delay_total) (λ _, v) s.

Definition assign_hello_sent (v : bool) (s : ClientConnection) : ClientConnection :=
  ltac:(setter ClientConnection bool hello_sent) (λ _, v) s.

Definition assign_send_notifications (v : bool) (s : ClientConnection) : ClientConnection :=
  ltac:(setter ClientConnection bool send_notifications) (λ _, v) s.

Definition assign_notification_callbacks (v : gmap Z Callback) (s : ClientConnection) : ClientConnection :=
  ltac:(setter ClientConnection (gmap Z Callback) notification_callbacks) (λ _, v) s.

Definition assign_desktop_size (v : option (Z * Z)) (s : ClientConnection) : ClientConnection :=
  ltac:(setter ClientConnection (option (Z * Z)) desktop_size) (λ _, v) s.

Definition assign_desktop_mode_size (v : option (Z * Z)) (s : ClientConnection) : ClientConnection :=
  ltac:(setter ClientConnection (option (Z * Z)) desktop_mode_size) (λ _, v) s.

Definition assign_desktop_size_unscaled (v : option (Z * Z)) (s : ClientConnection) : ClientConnection :=
  ltac:(setter ClientConnection (option (Z * Z)) desktop_size_unscaled) (λ _, v) s.

(** ** Network: the packet scheduler *)

Definition is_closed (s : ClientConnection) : bool := closed s.

Definition empty_packet : NextPacket :=
  {| packet := None; start_send_cb := None; end_send_cb := None;
     fail_cb := None; synchronous := true; have_more := false;
     will_have_more := false |}.

(** [len(self.ordinary_packets)>0 or len(self.packet_queue)>0] *)
Definition queues_nonempty (s : ClientConnection) : bool :=
  (0 <? length (ordinary_packets s))%nat || (0 <? length (packet_queue s))%nat.

(** [have_more = packet is not None and (...)], read after the pop. *)
Definition compute_have_more (packet : option Parts) (s : ClientConnection) : bool :=
  bool_decide (is_Some packet) && queues_nonempty s.

Definition next_packet (s : ClientConnection) : NextPacket * ClientConnection :=
  if negb (is_closed s) then
    match ordinary_packets s with
    | e :: rest =>
        (* packet, synchronous, fail_cb, will_have_more = ordinary_packets.pop(0) *)
        let s' := assign_ordinary_packets rest s in
        ({| packet := Some (o_parts e);
            start_send_cb := None;
            end_send_cb := None;
            fail_cb := o_fail_cb e;
            synchronous := o_synchronous e;
            have_more := compute_have_more (Some (o_parts e)) s';
            will_have_more := o_will_have_more e |}, s')
    | [] =>
        match packet_queue s with
        | e :: rest =>
            (* packet, _, _, start_send_cb, end_send_cb, fail_cb, will_have_more
                 = packet_queue.popleft() *)
            let s' := assign_packet_queue rest s in
            ({| packet := b_packet e;
                start_send_cb := b_start_send_cb e;
                end_send_cb := b_end_send_cb e;
                fail_cb := b_fail_cb e;
                synchronous := true;
                have_more := compute_have_more (b_packet e) s';
                will_have_more := b_will_have_more e |}, s')
        | [] => (empty_packet, s)
        end
    end
  else (empty_packet, s).

(** [send]: queues a non-damage packet when a transport is attached. *)
Definition send (parts : Parts) (kwargs : Kwargs) (s : ClientConnection)
  : ClientConnection :=
  let synchronous := default true (kw_synchronous kwargs) in
  let will_have_more := default (negb synchronous) (kw_will_have_more kwargs) in
  let fail_cb := kw_fail_cb kwargs in
  match protocol s with
  | Some p =>
      let s :=
        assign_ordinary_packets
          (ordinary_packets s ++
           [ {| o_parts := parts; o_synchronous := synchronous;
                o_fail_cb := fail_cb; o_will_have_more := will_have_more |} ]) s in
      assign_source_has_more_calls (S (source_has_more_calls s)) s
  | None => s
  end.

(** [kwargs["will_have_more"] = True] *)
Definition send_more (parts : Parts) (kwargs : Kwargs) : ClientConnection → ClientConnection :=
  send parts {| kw_synchronous := kw_synchronous kwargs;
                kw_will_have_more := Some true;
                kw_fail_cb := kw_fail_cb kwargs |}.

(** [kwargs["synchronous"] = False] *)
Definition send_async (parts : Parts) (kwargs : Kwargs) : ClientConnection → ClientConnection :=
  send parts {| kw_synchronous := Some false;
                kw_will_have_more := kw_will_have_more kwargs;
                kw_fail_cb := kw_fail_cb kwargs |}.

(** ** The main loop behind [timeout_add] and [source_remove] *)

(** Source ids are handed out in increasing order, starting from 1. *)
Definition timeout_add (delay : Z) (cb : TimerCallback) (s : ClientConnection)
  : Z * ClientConnection :=
  let id := next_source_id s in
  let s :=
    assign_main_loop
      (main_loop s ++ [ {| timer_id := id; timer_delay := delay; timer_cb := cb |} ]) s in
  (id, assign_next_source_id (id + 1) s).

Definition source_remove (id : Z) (s : ClientConnection) : ClientConnection :=
  assign_main_loop (filter (λ t, timer_id t ≠ id) (main_loop s)) s.

(** Truth value of a timer handle: [None] and [0] are false. *)
Definition handle_set (h : option Z) : bool :=
  match h with
  | Some id => negb (id =? 0)
  | None => false
  end.

(** ** Idle and grace timers *)

(** [max(10, int(idle_timeout*(100-GRACE_PERCENT)//100))], in seconds. *)
Definition grace_duration (env : Env) (idle_timeout : Z) : Z :=
  Z.max 10 (idle_timeout * (100 - GRACE_PERCENT env) / 100).

Definition schedule_idle_timeout (s : ClientConnection) : ClientConnection :=
  let s :=
    if handle_set (idle_timer s)
    then assign_idle_timer None (source_remove (default 0 (idle_timer s)) s)
    else s in
  if 0 <? idle_timeout s then
    let '(id, s) := timeout_add (idle_timeout s * 1000) IdleTimedout s in
    assign_idle_timer (Some id) s
  else s.

Definition schedule_idle_grace_timeout (s : ClientConnection) : ClientConnection :=
  let s :=
    if handle_set (idle_grace_timer s)
    then assign_idle_grace_timer None (source_remove (default 0 (idle_grace_timer s)) s)
    else s in
  if (0 <? idle_timeout s) && negb (is_closed s) then
    let grace := idle_timeout s - idle_grace_duration s in
    let '(id, s) := timeout_add (Z.max 0 (grace * 1000)) IdleGraceTimedout s in
    assign_idle_grace_timer (Some id) s
  else s.

Section Callbacks.
(** The callbacks received by [__init__]; they are given the session
    and may act on it (the server's idle callback disconnects it). *)
Variable idle_timeout_cb : ClientConnection → ClientConnection.
Variable idle_grace_timeout_cb : ClientConnection → ClientConnection.

Definition idle_grace_timedout (s : ClientConnection) : ClientConnection :=
  let s := assign_idle_grace_timer None s in
  idle_grace_timeout_cb (assign_events (events s ++ [IdleGraceTimeoutCb]) s).

Definition idle_timedout (s : ClientConnection) : ClientConnection :=
  let s := assign_idle_timer None s in
  let s := idle_timeout_cb (assign_events (events s ++ [IdleTimeoutCb]) s) in
  if negb (is_closed s) then schedule_idle_timeout s else s.

Definition run_callback (cb : TimerCallback) : ClientConnection → ClientConnection :=
  match cb with
  | IdleTimedout => idle_timedout
  | IdleGraceTimedout => idle_grace_timedout
  end.

(** The main loop fires the pending source [id]: its callback runs and,
    as it returns [None], the source is removed.  Nothing happens when
    no such source is pending. *)
Definition fire (id : Z) (s : ClientConnection) : ClientConnection :=
  match list_find (λ t, timer_id t = id) (main_loop s) with
  | Some (_, t) => source_remove id (run_callback (timer_cb t) s)
  | None => s
  end.
End Callbacks.

(** ** Construction and close *)

(** [__init__] followed by [init_vars], for the attributes kept here.
    The attributes owned by the mixins start as their constructors leave
    them: no window, empty queues, no mmap area, not suspended. *)
Definition init (env : Env) (protocol : Protocol)
    (idle_timeout bandwidth_limit : Z) (av_sync : bool) : ClientConnection :=
  let s :=
    {| closed := false;
       protocol := Some protocol;
       ordinary_packets := [];
       packet_queue := [];
       encode_work_queue := [];
       source_has_more_calls := 0;
       idle_timeout := idle_timeout;
       idle_grace_duration := grace_duration env idle_timeout;
       idle_timer := None;
       idle_grace_timer := None;
       main_loop := [];
       next_source_id := 1;
       events := [];
       server_bandwidth_limit := bandwidth_limit;
       bandwidth_limit := bandwidth_limit;
       soft_bandwidth_limit := bandwidth_limit;
       avg_congestion_send_speed := 0;
       mmap_size := 0;
       window_sources := ∅;
       av_sync := av_sync;
       av_sync_delay := 0;
       av_sync_delta := AV_SYNC_DELTA env;
       av_sync_delay_total := 0;
       hello_sent := false;
       send_notifications := false;
       suspended := false;
       notification_callbacks := ∅;
       desktop_size := None;
       desktop_mode_size := None;
       desktop_size_unscaled := None;
       file_transfer := false;
       file_size_limit := 0 |} in
  schedule_idle_timeout (schedule_idle_grace_timeout s).

Section Close.
(** [c.cleanup(self)] for each base class, in order, and
    [cancel_recalculate_timer]: methods of the mixins. *)
Variable bases_cleanup : ClientConnection → ClientConnection.
Variable cancel_recalculate_timer : ClientConnection → ClientConnection.

Definition close (s : ClientConnection) : ClientConnection :=
  let s := bases_cleanup s in
  let s := assign_closed true s in
  let s := assign_encode_work_queue (encode_work_queue s ++ [None]) s in
  let s := cancel_recalculate_timer s in
  assign_protocol None s.
End Close.

(** What a method of a mixin leaves alone: the attributes that
    [ClientConnection] itself creates for the scheduler and the timers. *)
Record keeps_core (f : ClientConnection → ClientConnection) : Prop := {
  keeps_closed : ∀ s, closed (f s) = closed s;
  keeps_protocol : ∀ s, protocol (f s) = protocol s;
  keeps_ordinary_packets : ∀ s, ordinary_packets (f s) = ordinary_packets s;
  keeps_wakeups : ∀ s, source_has_more_calls (f s) = source_has_more_calls s;
  keeps_idle_timeout : ∀ s, idle_timeout (f s) = idle_timeout s;
  keeps_idle_timer : ∀ s, idle_timer (f s) = idle_timer s;
  keeps_idle_grace_timer : ∀ s, idle_grace_timer (f s) = idle_grace_timer s;
  keeps_main_loop : ∀ s, main_loop (f s) = main_loop s;
  keeps_next_source_id : ∀ s, next_source_id (f s) = next_source_id s;
  keeps_events : ∀ s, events (f s) = events s;
}.

(** ** Exceptions *)

Inductive Exn := ZeroDivisionError | AttributeError.

(** A method either returns, or raises with the object as it was left. *)
Inductive Outcome :=
  | Returned (s : ClientConnection)
  | Raised (e : Exn) (s : ClientConnection).

(** ** Bandwidth *)

(** The weight given to one window by the first loop. *)
Definition weight_of (ws : WS.t) : Z :=
  if WS.suspended ws then 0
  else let '(ww, wh) := WS.window_dimensions ws in ww * wh + WS.damage_pixels ws.

(** [sum(window_weight.values())] *)
Definition sum_values (m : gmap Z Z) : Z := map_fold (λ _ w acc, w + acc) 0 m.

(** The soft limit computed before the early return. *)
Definition compute_soft_limit (env : Env) (s : ClientConnection) : Z :=
  let bandwidth_limit0 :=
    if BANDWIDTH_DETECTION env then
      let b := avg_congestion_send_speed s in
      if 20 * 1024 * 1024 <? b then 0 else b
    else 0 in
  if 0 <? bandwidth_limit s then Z.min (bandwidth_limit s) bandwidth_limit0
  else bandwidth_limit0.

(** [max(1, bandwidth_limit*weight//total_weight)] *)
Definition share (limit weight total_weight : Z) : Exn + Z :=
  if total_weight =? 0 then inl ZeroDivisionError
  else inr (Z.max 1 (limit * weight / total_weight)).

(** The second loop, over the items of [window_sources]; [acc] is the
    dictionary whose window sources are updated in place. *)
Fixpoint distribute (limit total_weight : Z) (window_weight : gmap Z Z)
    (items : list (Z * WS.t)) (acc : gmap Z WS.t) : Exn * gmap Z WS.t + gmap Z WS.t :=
  match items with
  | [] => inr acc
  | (wid, ws) :: items =>
      match window_weight !! wid with
      | Some weight =>
          match share limit weight total_weight with
          | inr v =>
              distribute limit total_weight window_weight items
                (<[wid := WS.assign_bandwidth_limit v ws]> acc)
          | inl e => inl (e, acc)
          end
      | None => distribute limit total_weight window_weight items acc
      end
  end.

Definition update_bandwidth_limits (env : Env) (s : ClientConnection) : Outcome :=
  if 0 <? mmap_size s then Returned s else
  let limit := compute_soft_limit env s in
  let s := assign_soft_bandwidth_limit limit s in
  if soft_bandwidth_limit s <=? 0 then Returned s else
  let window_weight : gmap Z Z := weight_of <$> window_sources s in
  let total_weight := sum_values window_weight in
  match distribute limit total_weight window_weight
          (map_to_list (window_sources s)) (window_sources s) with
  | inr m => Returned (assign_window_sources m s)
  | inl (e, m) => Raised e (assign_window_sources m s)
  end.

(** Sum of the limits held by the windows, and the number of windows
    whose exact share [limit*weight//total] is below one unit. *)
Definition sum_limits (m : gmap Z WS.t) : Z := sum_values (WS.bandwidth_limit <$> m).

Definition starved (limit total_weight : Z) (m : gmap Z WS.t) : Z :=
  sum_values ((λ ws, if limit * weight_of ws / total_weight <? 1 then 1 else 0) <$> m).

(** ** Audio / video synchronisation *)

Section AVSync.
(** [get_sound_source_latency], a method of the audio mixin. *)
Variable get_sound_source_latency : ClientConnection → Z.

Definition update_av_sync_delay_total (s : ClientConnection) : ClientConnection :=
  let s :=
    if av_sync s then
      let encoder_latency := get_sound_source_latency s in
      assign_av_sync_delay_total
        (Z.min 1000 (Z.max 0 (av_sync_delay s + av_sync_delta s + encoder_latency))) s
    else assign_av_sync_delay_total 0 s in
  assign_window_sources
    (WS.set_av_sync_delay (av_sync_delay_total s) <$> window_sources s) s.

Definition set_av_sync_delta (delta : Z) (s : ClientConnection) : ClientConnection :=
  update_av_sync_delay_total (assign_av_sync_delta delta s).

Definition set_av_sync_delay (v : Z) (s : ClientConnection) : ClientConnection :=
  update_av_sync_delay_total (assign_av_sync_delay v s).
End AVSync.

(** ** Capabilities *)

(** The accessors of the capabilities dictionary used below; each takes
    the key and the default returned when the key is absent. *)
Record typedict := {
  boolget : string → bool → bool;
  intget : string → Z → Z;
  intpair : string → option (Z * Z) → option (Z * Z);
}.

(** The check applied to [desktop_size] once read. *)
Definition checked_desktop_size (v : option (Z * Z)) : option (Z * Z) :=
  match v with
  | Some (w, h) =>
      if (w <=? 0) || (h <=? 0) || (w >=? 32768) || (h >=? 32768) then None
      else Some (w, h)
  | None => None
  end.

Section ParseHello.
Variable get_sound_source_latency : ClientConnection → Z.
(** The [parse_client_caps] of the six mixins, in order. *)
Variable mixins_parse_client_caps : typedict → ClientConnection → ClientConnection.

(** [parse_hello] is cut into its consecutive blocks.  Only the
    attributes of the record are followed: the [wants_*] flags, the
    other feature flags, the screen sizes, the icc data, the connection
    data and the log lines are not kept. *)

(** The bandwidth limit: the client's value, capped by the server's. *)
Definition parse_bandwidth_limit (c : typedict) (s : ClientConnection)
  : ClientConnection :=
  let bandwidth_limit' := intget c "bandwidth-limit" 0 in
  if server_bandwidth_limit s <=? 0
  then assign_bandwidth_limit bandwidth_limit' s
  else assign_bandwidth_limit (Z.min (server_bandwidth_limit s) bandwidth_limit') s.

(** The desktop sizes; [desktop_size] is reset to [None] when invalid. *)
Definition parse_desktop_size (c : typedict) (s : ClientConnection)
  : ClientConnection :=
  let s := assign_desktop_size (intpair c "desktop_size" None) s in
  let s := assign_desktop_size (checked_desktop_size (desktop_size s)) s in
  let s := assign_desktop_mode_size (intpair c "desktop_mode_size" None) s in
  assign_desktop_size_unscaled (intpair c "desktop_size.unscaled" None) s.

(** [set_av_sync_delay(int(self.av_sync and av_sync) * default delay)] *)
Definition parse_av_sync (c : typedict) (s : ClientConnection) : ClientConnection :=
  let av_sync' := boolget c "av-sync" false in
  set_av_sync_delay get_sound_source_latency
    ((if av_sync s && av_sync' then 1 else 0) * intget c "av-sync.delay.default" 150) s.

(** The end of the method: mmap overrides the bandwidth limit, and file
    transfers raise the maximum packet size of the transport. *)
Definition parse_transport_limits (s : ClientConnection) : Outcome :=
  let s := if 0 <? mmap_size s then assign_bandwidth_limit 0 s else s in
  if file_transfer s then
    match protocol s with
    | Some p =>
        Returned
          (assign_protocol
             (Some {| max_packet_size :=
                        Z.max (max_packet_size p) (file_size_limit s * 1024 * 1024) |}) s)
    | None => Raised AttributeError s
    end
  else Returned s.

Definition parse_hello (c : typedict) (s : ClientConnection) : Outcome :=
  let s := mixins_parse_client_caps c s in
  let s := assign_send_notifications (boolget c "notifications" false) s in
  let s := parse_bandwidth_limit c s in
  let s := parse_desktop_size c s in
  let s := parse_av_sync c s in
  parse_transport_limits s.
End ParseHello.

(** [send_hello], with the capabilities already merged. *)
Definition send_hello (capabilities : Arg) (s : ClientConnection) : ClientConnection :=
  assign_hello_sent true (send [AStr "hello"; capabilities] no_kwargs s).

(** ** Notifications *)

(** The positional arguments of [notify]. *)
Record Notification := {
  dbus_id : Arg;
  nid : Z;
  app_name : Arg;
  replaces_nid : Arg;
  app_icon : Arg;
  summary : Arg;
  body : Arg;
  actions : Arg;
  hints : Arg;
  expire_timeout : Arg;
  icon : Arg;
}.

Section Notify.
(** [x.encode("utf8")], or [str(x)] when that raises. *)
Variable encode_utf8 : Arg → Arg.

Definition notify (n : Notification) (user_callback : option Callback)
    (s : ClientConnection) : bool * ClientConnection :=
  if negb (send_notifications s) then (false, s) else
  if suspended s then (false, s) else
  let s :=
    match user_callback with
    | Some cb =>
        assign_notification_callbacks (<[nid n := cb]> (notification_callbacks s)) s
    | None => s
    end in
  let summary' := encode_utf8 (summary n) in
  let body' := encode_utf8 (body n) in
  let s :=
    if hello_sent s then
      send_async [AStr "notify_show"; dbus_id n; AInt (nid n); app_name n;
                  replaces_nid n; app_icon n; summary'; body';
                  expire_timeout n; icon n; actions n; hints n] no_kwargs s
    else s in
  (true, s).
End Notify.

Definition notify_close (nid : Z) (s : ClientConnection) : ClientConnection :=
  if negb (send_notifications s) || suspended s || negb (hello_sent s) then s
  else send_more [AStr "notify_close"; AInt nid] no_kwargs s.

(** ** Derived notions used in the statements *)

(** The window source after the second loop has written its limit. *)
Definition with_share (limit total_weight : Z) (ws : WS.t) : WS.t :=
  WS.assign_bandwidth_limit (Z.max 1 (limit * weight_of ws / total_weight)) ws.

Definition clamp (x lo hi : Z) : Z := Z.min hi (Z.max lo x).

(** The entries queued by [notify] and [notify_close]. *)
Definition notify_show_entry (encode_utf8 : Arg → Arg) (n : Notification) : OrdinaryEntry :=
  {| o_parts := [AStr "notify_show"; dbus_id n; AInt (nid n); app_name n;
                 replaces_nid n; app_icon n; encode_utf8 (summary n);
                 encode_utf8 (body n); expire_timeout n; icon n; actions n; hints n];
     o_synchronous := false; o_fail_cb := None; o_will_have_more := true |}.

Definition notify_close_entry (nid : Z) : OrdinaryEntry :=
  {| o_parts := [AStr "notify_close"; AInt nid];
     o_synchronous := true; o_fail_cb := None; o_will_have_more := true |}.

Definition attached (s : ClientConnection) : bool := bool_decide (is_Some (protocol s)).

(** ** Sample sessions *)

Definition ordinary_example : OrdinaryEntry :=
  {| o_parts := [AStr "startup-complete"]; o_synchronous := true;
     o_fail_cb := None; o_will_have_more := false |}.

Definition bulk_example : BulkEntry :=
  {| b_packet := Some [AStr "draw"]; b_slot1 := 1; b_slot2 := 0;
     b_start_send_cb := Some 1%nat; b_end_send_cb := Some 2%nat;
     b_fail_cb := None; b_will_have_more := false |}.

Definition session_example : ClientConnection :=
  init default_env {| max_packet_size := 262144 |} 60 0 true.

Definition queued_example : ClientConnection :=
  assign_packet_queue [bulk_example]
    (assign_ordinary_packets [ordinary_example] session_example).

Definition congested_example (speed : Z) (m : gmap Z WS.t) : ClientConnection :=
  assign_window_sources m (assign_avg_congestion_send_speed speed session_example).

Definition window_example (susp : bool) (dims : Z * Z) : WS.t :=
  {| WS.suspended := susp; WS.window_dimensions := dims; WS.damage_pixels := 0;
     WS.bandwidth_limit := 0; WS.av_sync_delay := 0 |}.

Definition scenario_c : ClientConnection :=
  congested_example 1000
    (<[1 := window_example false (10, 10)]> (<[2 := window_example false (10, 30)]> ∅)).

(** One large window and two small ones share 1000 units. *)
Definition overcommit_example : ClientConnection :=
  congested_example 1000
    (<[1 := window_example false (1000, 1000)]>
       (<[2 := window_example false (10, 10)]>
          (<[3 := window_example false (10, 10)]> ∅))).

(** A suspended window next to an active one. *)
Definition suspended_example : ClientConnection :=
  congested_example 1000
    (<[1 := window_example false (10, 10)]> (<[2 := window_example true (10, 30)]> ∅)).

(** A session whose only window is suspended. *)
Definition all_suspended_example : ClientConnection :=
  congested_example 1000 (<[1 := window_example true (10, 10)]> ∅).

(** Scenario E: the client sends a desktop size of (40000, 10). *)
Definition scenario_e_caps : typedict :=
  {| boolget := λ _ d, d;
     intget := λ _ d, d;
     intpair := λ k d, if decide (k = "desktop_size") then Some (40000, 10) else d |}.

Definition notification_example : Notification :=
  {| dbus_id := AStr EmptyString; nid := 7; app_name := AStr "Xpra"; replaces_nid := AInt 0;
     app_icon := AStr EmptyString; summary := AStr "idle"; body := AStr "session is idle";
     actions := AObj 0; hints := AObj 1; expire_timeout := AInt 10000; icon := AObj 2 |}.

Definition notifying_example : ClientConnection :=
  assign_send_notifications true session_example.

Definition closed_example : ClientConnection := close (λ s, s) (λ s, s) session_example.

(** ** The transport's pulls *)

(** The transport calls [next_packet] each time it is ready to write:
    [pull n s] is the list of tuples handed out by [n] successive calls,
    with the session they leave. *)
Fixpoint pull (n : nat) (s : ClientConnection) : list NextPacket * ClientConnection :=
  match n with
  | O => ([], s)
  | S n =>
      let '(r, s) := next_packet s in
      let '(rs, s) := pull n s in
      (r :: rs, s)
  end.


(** ** Pending timers *)

#[global] Instance TimerCallback_eq_dec : EqDecision TimerCallback.
Proof. solve_decision. Defined.

(** The ids of the sources of [l] that will call [cb]. *)
Definition ids_for (cb : TimerCallback) (l : list Timer) : list Z :=
  timer_id <$> filter (λ t, timer_cb t = cb) l.

Definition pending (cb : TimerCallback) (s : ClientConnection) : list Z :=
  ids_for cb (main_loop s).

(** The timer attributes are consistent: source ids are positive and
    below the next one to be handed out, the two handles differ, and the
    pending idle (grace) sources are exactly the one recorded in
    [idle_timer] ([idle_grace_timer]), none when the handle is [None]. *)
Definition timers_view_ok (l : list Timer) (next : Z) (idle grace : option Z) : Prop :=
  0 < next ∧
  Forall (λ t, 0 < timer_id t < next) l ∧
  (∀ id, idle = Some id → grace ≠ Some id) ∧
  ids_for IdleTimedout l = option_list idle ∧
  ids_for IdleGraceTimedout l = option_list grace.

Definition timers_ok (s : ClientConnection) : Prop :=
  timers_view_ok (main_loop s) (next_source_id s) (idle_timer s) (idle_grace_timer s).

(** What a callback leaves alone when all it may do to the timers is
    nothing: it may well close the session. *)
Record keeps_timers (f : ClientConnection → ClientConnection) : Prop := {
  kt_idle_timeout : ∀ s, idle_timeout (f s) = idle_timeout s;
  kt_idle_timer : ∀ s, idle_timer (f s) = idle_timer s;
  kt_idle_grace_timer : ∀ s, idle_grace_timer (f s) = idle_grace_timer s;
  kt_main_loop : ∀ s, main_loop (f s) = main_loop s;
  kt_next_source_id : ∀ s, next_source_id (f s) = next_source_id s;
}.

(** The calls that touch the timers. *)
Inductive TimerOp :=
  | ScheduleIdle
  | ScheduleGrace
  | Fire (id : Z)
  | Close.

Section TimerOps.
Variable idle_timeout_cb : ClientConnection → ClientConnection.
Variable idle_grace_timeout_cb : ClientConnection → ClientConnection.
Variable bases_cleanup : ClientConnection → ClientConnection.
Variable cancel_recalculate_timer : ClientConnection → ClientConnection.

Definition run_op (s : ClientConnection) (op : TimerOp) : ClientConnection :=
  match op with
  | ScheduleIdle => schedule_idle_timeout s
  | ScheduleGrace => schedule_idle_grace_timeout s
  | Fire id => fire idle_timeout_cb idle_grace_timeout_cb id s
  | Close => close bases_cleanup cancel_recalculate_timer s
  end.

Definition run_ops (s : ClientConnection) (ops : list TimerOp) : ClientConnection :=
  foldl run_op s ops.
End TimerOps.


(** ** Sample sessions for the bandwidth allocator *)

(** Scenario B: a congestion speed of 25 Mbit/s, above the 20 Mbit/s mark. *)
Definition scenario_b : ClientConnection :=
  congested_example (25 * 1024 * 1024)
    (<[1 := window_example false (10, 10)]> ∅).


(** ** Messages gated on hello *)

Definition startup_complete (s : ClientConnection) : ClientConnection :=
  send [AStr "startup-complete"] no_kwargs s.

Definition set_deflate (level : Arg) (s : ClientConnection) : ClientConnection :=
  send [AStr "set_deflate"; level] no_kwargs s.

Definition send_webcam_ack (device frame : Arg) (args : list Arg) (s : ClientConnection)
  : ClientConnection :=
  if hello_sent s then send_async (AStr "webcam-ack" :: device :: frame :: args) no_kwargs s
  else s.

Definition send_webcam_stop (device message : Arg) (s : ClientConnection)
  : ClientConnection :=
  if hello_sent s then send_async [AStr "webcam-stop"; device; message] no_kwargs s
  else s.

Definition send_client_command (args : list Arg) (s : ClientConnection) : ClientConnection :=
  if hello_sent s then send_more (AStr "control" :: args) no_kwargs s else s.

Definition rpc_reply (args : list Arg) (s : ClientConnection) : ClientConnection :=
  if hello_sent s then send (AStr "rpc-reply" :: args) no_kwargs s else s.

(** ** The attributes of the other methods

    The session with the attributes read or written by [user_event],
    [update_mouse], [updated_desktop_size], [show_desktop],
    [send_setting_change] and [send_server_event]; [core] holds the
    attributes above.  [last_user_event] is a reading of the monotonic
    clock. *)
Record Session := {
  core : ClientConnection;
  idle : bool;
  last_user_event : Z;
  randr_notify : bool;
  desktop_size_server : option (Z * Z);
  wants_events : bool;
  client_setting_change : bool;
  show_desktop_allowed : bool;
  mouse_show : bool;
  mouse_last_position : option (Z * Z * Z * Z);
}.

Definition assign_core (v : ClientConnection) (ss : Session) : Session :=
  ltac:(setter Session ClientConnection core) (λ _, v) ss.

Definition assign_last_user_event (v : Z) (ss : Session) : Session :=
  ltac:(setter Session Z last_user_event) (λ _, v) ss.

Definition assign_desktop_size_server (v : option (Z * Z)) (ss : Session) : Session :=
  ltac:(setter Session (option (Z * Z)) desktop_size_server) (λ _, v) ss.

Definition assign_mouse_last_position (v : option (Z * Z * Z * Z)) (ss : Session) : Session :=
  ltac:(setter Session (option (Z * Z * Z * Z)) mouse_last_position) (λ _, v) ss.

(** A method of the attributes above, run on the session. *)
Definition on_core (f : ClientConnection → ClientConnection) (ss : Session) : Session :=
  assign_core (f (core ss)) ss.

Definition update_mouse (wid x y rx ry : Z) (ss : Session) : Session :=
  if negb (mouse_show ss) then ss
  else if decide (mouse_last_position ss ≠ Some (x, y, rx, ry)) then
    let ss := assign_mouse_last_position (Some (x, y, rx, ry)) ss in
    on_core (send_async [AStr "pointer-position"; AInt wid; AInt x; AInt y; AInt rx; AInt ry]
               no_kwargs) ss
  else ss.

Definition send_setting_change (setting value : Arg) (ss : Session) : Session :=
  if client_setting_change ss
  then on_core (send_more [AStr "setting-change"; setting; value] no_kwargs) ss
  else ss.

Definition send_server_event (args : list Arg) (ss : Session) : Session :=
  if wants_events ss
  then on_core (send_more (AStr "server-event" :: args) no_kwargs) ss
  else ss.

Definition updated_desktop_size (root_w root_h max_w max_h : Z) (ss : Session)
  : bool * Session :=
  if negb (hello_sent (core ss)) then (false, ss)
  else if randr_notify ss
          && bool_decide (desktop_size_server ss ≠ Some (root_w, root_h)) then
    let ss := assign_desktop_size_server (Some (root_w, root_h)) ss in
    let ss := on_core (send [AStr "desktop_size"; AInt root_w; AInt root_h;
                             AInt max_w; AInt max_h] no_kwargs) ss in
    (true, ss)
  else (false, ss).

Definition show_desktop (show : Arg) (ss : Session) : Session :=
  if show_desktop_allowed ss && hello_sent (core ss)
  then on_core (send_async [AStr "show-desktop"; show] no_kwargs) ss
  else ss.

Section UserEvent.
(** [XPRA_IDLE_NOTIFICATION_ID], imported from [xpra.util]. *)
Variable XPRA_IDLE_NOTIFICATION_ID : Z.
(** [no_idle], a method of one of the mixins. *)
Variable no_idle : Session → Session.

(** [user_event], called with the reading [now] of the monotonic clock. *)
Definition user_event (now : Z) (ss : Session) : Session :=
  let ss := assign_last_user_event now ss in
  let ss := on_core schedule_idle_grace_timeout ss in
  let ss := on_core schedule_idle_timeout ss in
  let ss := if idle ss then no_idle ss else ss in
  match notification_callbacks (core ss) !! XPRA_IDLE_NOTIFICATION_ID with
  | Some _ =>
      let ss :=
        on_core (λ s, assign_notification_callbacks
                        (delete XPRA_IDLE_NOTIFICATION_ID (notification_callbacks s)) s) ss in
      on_core (notify_close XPRA_IDLE_NOTIFICATION_ID) ss
  | None => ss
  end.
End UserEvent.

(** The calls that send nothing until hello has been sent. *)
Inductive GatedCall :=
  | WebcamAck (device frame : Arg) (args : list Arg)
  | WebcamStop (device message : Arg)
  | ClientCommand (args : list Arg)
  | RpcReply (args : list Arg)
  | NotifyClose (nid : Z)
  | ShowDesktop (show : Arg)
  | UpdatedDesktopSize (root_w root_h max_w max_h : Z).

Definition run_gated (ss : Session) (call : GatedCall) : Session :=
  match call with
  | WebcamAck device frame args => on_core (send_webcam_ack device frame args) ss
  | WebcamStop device message => on_core (send_webcam_stop device message) ss
  | ClientCommand args => on_core (send_client_command args) ss
  | RpcReply args => on_core (rpc_reply args) ss
  | NotifyClose nid => on_core (notify_close nid) ss
  | ShowDesktop show => show_desktop show ss
  | UpdatedDesktopSize root_w root_h max_w max_h =>
      (updated_desktop_size root_w root_h max_w max_h ss).2
  end.

(** A sample: the attributes of a client that negotiated randr
    notifications and the display of the pointer, around [s]. *)
Definition session_of (s : ClientConnection) : Session :=
  {| core := s; idle := false; last_user_event := 0; randr_notify := true;
     desktop_size_server := None; wants_events := false;
     client_setting_change := false; show_desktop_allowed := true;
     mouse_show := true; mouse_last_position := None |}.

(** A sample: hello was sent and the server has shown the idle
    notification, here under the id 7. *)
Definition idle_notified_example : Session :=
  session_of
    (notify (λ x, x) notification_example (Some 1%nat)
       (send_hello (AObj 9) notifying_example)).2.

(** * Properties *)

(** ** Assignments *)

(** Each assignment stores its value; that the other fields are kept is
    used, by computation, throughout the proofs below. *)
Lemma assign_get (s : ClientConnection) :
  (∀ v, closed (assign_closed v s) = v) ∧
  (∀ v, protocol (assign_protocol v s) = v) ∧
  (∀ v, ordinary_packets (assign_ordinary_packets v s) = v) ∧
  (∀ v, packet_queue (assign_packet_queue v s) = v) ∧
  (∀ v, encode_work_queue (assign_encode_work_queue v s) = v) ∧
  (∀ v, source_has_more_calls (assign_source_has_more_calls v s) = v) ∧
  (∀ v, idle_timer (assign_idle_timer v s) = v) ∧
  (∀ v, idle_grace_timer (assign_idle_grace_timer v s) = v) ∧
  (∀ v, main_loop (assign_main_loop v s) = v) ∧
  (∀ v, next_source_id (assign_next_source_id v s) = v) ∧
  (∀ v, events (assign_events v s) = v) ∧
  (∀ v, bandwidth_limit (assign_bandwidth_limit v s) = v) ∧
  (∀ v, soft_bandwidth_limit (assign_soft_bandwidth_limit v s) = v) ∧
  (∀ v, avg_congestion_send_speed (assign_avg_congestion_send_speed v s) = v) ∧
  (∀ v, window_sources (assign_window_sources v s) = v) ∧
  (∀ v, av_sync_delay (assign_av_sync_delay v s) = v) ∧
  (∀ v, av_sync_delta (assign_av_sync_delta v s) = v) ∧
  (∀ v, av_sync_delay_total (assign_av_sync_delay_total v s) = v) ∧
  (∀ v, hello_sent (assign_hello_sent v s) = v) ∧
  (∀ v, send_notifications (assign_send_notifications v s) = v) ∧
  (∀ v, notification_callbacks (assign_notification_callbacks v s) = v) ∧
  (∀ v, desktop_size (assign_desktop_size v s) = v) ∧
  (∀ v, desktop_mode_size (assign_desktop_mode_size v s) = v) ∧
  (∀ v, desktop_size_unscaled (assign_desktop_size_unscaled v s) = v).
Proof. repeat split. Qed.

(** ** Scheduler *)

Lemma next_packet_closed (s : ClientConnection) :
  is_closed s = true → next_packet s = (empty_packet, s).
Proof. unfold next_packet. by intros ->. Qed.

Lemma next_packet_bulk_only_when_no_ordinary (s : ClientConnection) :
  packet_queue (next_packet s).2 ≠ packet_queue s → ordinary_packets s = [].
Proof.
  unfold next_packet.
  destruct (is_closed s); cbn [negb]; [done|].
  destruct (ordinary_packets s) as [|e rest]; [done|].
  cbn [snd]. by intros [].
Qed.

(** C1. In an open session [next_packet] serves ordinary entries before
    bulk ones: when [ordinary_packets] is not empty the front ordinary
    entry is returned and removed while [packet_queue] is left alone, and
    [packet_queue] loses an entry only when [ordinary_packets] is empty. *)
Theorem next_packet_ordinary_first (s : ClientConnection) :
  is_closed s = false →
  (∀ e rest, ordinary_packets s = e :: rest →
     let (r, s') := next_packet s in
     packet r = Some (o_parts e) ∧
     synchronous r = o_synchronous e ∧
     fail_cb r = o_fail_cb e ∧
     will_have_more r = o_will_have_more e ∧
     start_send_cb r = None ∧ end_send_cb r = None ∧
     ordinary_packets s' = rest ∧
     packet_queue s' = packet_queue s) ∧
  (packet_queue (next_packet s).2 ≠ packet_queue s → ordinary_packets s = []).
Proof.
  intros Hopen. split.
  - intros e rest He. unfold next_packet. rewrite Hopen, He. cbn [negb].
    repeat split.
  - apply next_packet_bulk_only_when_no_ordinary.
Qed.

(** An open session holding one ordinary and one bulk entry hands out
    the ordinary one and keeps the bulk one queued. *)
Lemma next_packet_ordinary_first_witness :
  is_closed queued_example = false ∧
  ordinary_packets queued_example = [ordinary_example] ∧
  packet (next_packet queued_example).1 = Some [AStr "startup-complete"] ∧
  packet_queue (next_packet queued_example).2 = [bulk_example].
Proof.
  split; [reflexivity|]. split; [reflexivity|].
  destruct (next_packet_ordinary_first queued_example eq_refl) as [H _].
  specialize (H ordinary_example [] eq_refl).
  destruct (next_packet queued_example) as [r s'].
  destruct H as (Hp & _ & _ & _ & _ & _ & _ & Hq). split; [exact Hp | exact Hq].
Defined.

Lemma send_detached parts kwargs (s : ClientConnection) :
  protocol s = None → send parts kwargs s = s.
Proof. unfold send. by intros ->. Qed.

Lemma send_ordinary_packets parts kwargs (s : ClientConnection) :
  ordinary_packets (send parts kwargs s) =
  ordinary_packets s ++
    (if attached s
     then [ {| o_parts := parts;
               o_synchronous := default true (kw_synchronous kwargs);
               o_fail_cb := kw_fail_cb kwargs;
               o_will_have_more :=
                 default (negb (default true (kw_synchronous kwargs)))
                         (kw_will_have_more kwargs) |} ]
     else []).
Proof.
  unfold send, attached. destruct (protocol s); [done|].
  by rewrite app_nil_r.
Qed.

Lemma send_notification_callbacks parts kwargs (s : ClientConnection) :
  notification_callbacks (send parts kwargs s) = notification_callbacks s.
Proof. unfold send. by destruct (protocol s). Qed.

Section CloseFacts.
Variable bases_cleanup : ClientConnection → ClientConnection.
Variable cancel_recalculate_timer : ClientConnection → ClientConnection.

Local Abbreviation close := (close bases_cleanup cancel_recalculate_timer).

Lemma close_protocol (s : ClientConnection) : protocol (close s) = None.
Proof. reflexivity. Qed.

(** C10. After [close] has cleared [protocol], [send], [send_more] and
    [send_async] leave the session as it is: nothing is appended to
    [ordinary_packets] and the transport is not woken up. *)
Theorem send_after_close_noop parts kwargs (s : ClientConnection) :
  send parts kwargs (close s) = close s ∧
  send_more parts kwargs (close s) = close s ∧
  send_async parts kwargs (close s) = close s ∧
  ordinary_packets (send parts kwargs (close s)) = ordinary_packets (close s) ∧
  source_has_more_calls (send parts kwargs (close s)) = source_has_more_calls (close s).
Proof.
  assert (H : ∀ k, send parts k (close s) = close s).
  { intros k. apply send_detached, close_protocol. }
  unfold send_more, send_async. by rewrite !H.
Qed.
End CloseFacts.

(** ** Grace duration *)

Lemma schedule_idle_timeout_grace_duration (s : ClientConnection) :
  idle_grace_duration (schedule_idle_timeout s) = idle_grace_duration s.
Proof.
  unfold schedule_idle_timeout, timeout_add.
  destruct (handle_set (idle_timer s)); cbv zeta;
    match goal with |- context [if ?b then _ else _] => by destruct b end.
Qed.

Lemma schedule_idle_grace_timeout_grace_duration (s : ClientConnection) :
  idle_grace_duration (schedule_idle_grace_timeout s) = idle_grace_duration s.
Proof.
  unfold schedule_idle_grace_timeout, timeout_add.
  destruct (handle_set (idle_grace_timer s)); cbv zeta;
    match goal with |- context [if ?b then _ else _] => by destruct b end.
Qed.

Lemma init_grace_duration env p t limit av :
  idle_grace_duration (init env p t limit av) = grace_duration env t.
Proof.
  unfold init.
  by rewrite schedule_idle_timeout_grace_duration,
             schedule_idle_grace_timeout_grace_duration.
Qed.

Lemma grace_duration_default (t : Z) :
  grace_duration default_env t = Z.max 10 (t / 10).
Proof.
  unfold grace_duration. cbn [GRACE_PERCENT default_env].
  replace (t * (100 - 90)) with (t * 10) by lia.
  replace 100 with (10 * 10) at 1 by lia.
  rewrite Z.div_mul_cancel_r by lia. reflexivity.
Qed.

(** C5, as the code has it.  The grace duration computed at construction
    is [max(10, idle_timeout*(100-GRACE_PERCENT)//100)] seconds, hence at
    least 10 seconds; with the default [GRACE_PERCENT] of 90 it is below
    [idle_timeout] exactly when [idle_timeout] exceeds 10 seconds. *)
Theorem grace_duration_bounds env p (idle_timeout limit : Z) av :
  0 < idle_timeout →
  let grace := idle_grace_duration (init env p idle_timeout limit av) in
  grace = Z.max 10 (idle_timeout * (100 - GRACE_PERCENT env) / 100) ∧
  10 ≤ grace ∧
  (GRACE_PERCENT env = 90 → (grace < idle_timeout ↔ 10 < idle_timeout)).
Proof.
  intros Hpos grace. subst grace. rewrite init_grace_duration.
  split; [reflexivity|]. split; [unfold grace_duration; lia|].
  intros Hgp. unfold grace_duration. rewrite Hgp.
  pose proof (grace_duration_default idle_timeout) as Hd.
  unfold grace_duration in Hd. cbn [GRACE_PERCENT default_env] in Hd. rewrite Hd.
  assert (idle_timeout / 10 < idle_timeout) by (apply Z.div_lt; lia).
  lia.
Qed.

(** Scenario A: an idle timeout of 60 seconds gives 10 seconds of grace. *)
Lemma grace_duration_bounds_witness :
  0 < 60 ∧
  idle_grace_duration (init default_env {| max_packet_size := 262144 |} 60 0 true) = 10 ∧
  idle_grace_duration (init default_env {| max_packet_size := 262144 |} 60 0 true) < 60.
Proof.
  pose proof (grace_duration_bounds default_env {| max_packet_size := 262144 |} 60 0 true
                ltac:(lia)) as (H1 & _ & H3).
  split; [lia|]. split; [rewrite H1; reflexivity | apply H3; [reflexivity | lia]].
Defined.

(** C5 fails as stated: an idle timeout of 5 seconds gives a grace
    duration of 10 seconds, which is not below the idle timeout. *)
Lemma grace_duration_not_below_idle_timeout :
  0 < 5 ∧
  ¬ (idle_grace_duration (init default_env {| max_packet_size := 262144 |} 5 0 true) < 5).
Proof. split; [lia|]. vm_compute. discriminate. Qed.

(** ** Bandwidth allocation *)

Lemma sum_values_empty : sum_values ∅ = 0.
Proof. reflexivity. Qed.

Lemma sum_values_insert (m : gmap Z Z) k v :
  m !! k = None → sum_values (<[k:=v]> m) = v + sum_values m.
Proof.
  intros Hk. unfold sum_values.
  rewrite map_fold_insert_L; [done| intros; lia | done].
Qed.

Section Sums.
Context {A : Type}.
Implicit Types (f g : A → Z) (m : gmap Z A).

Lemma sum_fmap_insert f m k a :
  m !! k = None →
  sum_values (f <$> <[k:=a]> m) = f a + sum_values (f <$> m).
Proof.
  intros Hk. rewrite fmap_insert, sum_values_insert; [done|].
  by rewrite lookup_fmap, Hk.
Qed.

Lemma sum_fmap_le f g m :
  (∀ k a, m !! k = Some a → f a ≤ g a) →
  sum_values (f <$> m) ≤ sum_values (g <$> m).
Proof.
  induction m as [|k a m Hk IH] using map_ind; intros Hle.
  - by rewrite !fmap_empty.
  - rewrite !sum_fmap_insert by done.
    pose proof (Hle k a (lookup_insert_eq _ _ _)).
    assert (sum_values (f <$> m) ≤ sum_values (g <$> m)); [|lia].
    apply IH. intros k' a' Hk'. apply (Hle k').
    rewrite lookup_insert_ne; [done|]. intros ->. congruence.
Qed.

Lemma sum_fmap_add f g m :
  sum_values ((λ a, f a + g a) <$> m) = sum_values (f <$> m) + sum_values (g <$> m).
Proof.
  induction m as [|k a m Hk IH] using map_ind.
  - by rewrite !fmap_empty.
  - rewrite !sum_fmap_insert by done. lia.
Qed.

Lemma sum_fmap_scale c f m :
  sum_values ((λ a, c * f a) <$> m) = c * sum_values (f <$> m).
Proof.
  induction m as [|k a m Hk IH] using map_ind.
  - rewrite !fmap_empty, sum_values_empty. lia.
  - rewrite !sum_fmap_insert by done. lia.
Qed.
End Sums.

(** The second loop visits every item once: with a non-zero total it
    ends with every visited window holding its share. *)
Lemma distribute_lookup limit total (m0 : gmap Z WS.t) items :
  total ≠ 0 →
  NoDup items.*1 →
  (∀ k v, (k, v) ∈ items → m0 !! k = Some v) →
  ∀ acc, ∃ r,
    distribute limit total (weight_of <$> m0) items acc = inr r ∧
    ∀ k, r !! k = if decide (k ∈ items.*1)
                  then with_share limit total <$> m0 !! k else acc !! k.
Proof.
  intros Htotal. induction items as [|[k0 v0] items IH]; intros Hnd Hin acc.
  - exists acc. split; [done|]. intros k. rewrite decide_False; [done|].
    apply not_elem_of_nil.
  - rewrite fmap_cons in Hnd. apply NoDup_cons in Hnd as [Hk0 Hnd].
    assert (Hv0 : m0 !! k0 = Some v0) by apply Hin, list_elem_of_here.
    cbn [distribute]. rewrite lookup_fmap, Hv0.
    cbn [fmap option_fmap option_map]. unfold share.
    rewrite (proj2 (Z.eqb_neq _ _) Htotal).
    destruct (IH Hnd (λ k v H, Hin k v (list_elem_of_further _ _ _ H))
                (<[k0 := with_share limit total v0]> acc))
      as (r & Hd & Hr).
    exists r. split; [exact Hd|]. intros k. rewrite Hr, fmap_cons. cbn [fst].
    destruct (decide (k = k0)) as [->|Hne].
    + rewrite decide_False by done.
      rewrite decide_True by (apply elem_of_cons; by left).
      by rewrite lookup_insert_eq, Hv0.
    + rewrite lookup_insert_ne by done.
      destruct (decide (k ∈ items.*1)) as [Hk|Hk].
      * by rewrite decide_True by (apply elem_of_cons; by right).
      * rewrite decide_False; [done|]. by intros [?|?]%elem_of_cons.
Qed.

Lemma distribute_all limit total (m : gmap Z WS.t) :
  total ≠ 0 →
  distribute limit total (weight_of <$> m) (map_to_list m) m
  = inr (with_share limit total <$> m).
Proof.
  intros Htotal.
  destruct (distribute_lookup limit total m (map_to_list m) Htotal
              (NoDup_fst_map_to_list m)
              (λ k v, proj1 (elem_of_map_to_list m k v)) m) as (r & -> & Hr).
  f_equal. apply map_eq. intros k. rewrite Hr, lookup_fmap.
  case_decide as Hk; [done|].
  destruct (m !! k) as [v|] eqn:Hv; [|done].
  exfalso. apply Hk. apply list_elem_of_fmap. exists (k, v). split; [done|].
  by apply elem_of_map_to_list.
Qed.

Lemma distribute_zero_total limit (m : gmap Z WS.t) :
  m ≠ ∅ →
  distribute limit 0 (weight_of <$> m) (map_to_list m) m = inl (ZeroDivisionError, m).
Proof.
  intros Hm.
  destruct (map_to_list m) as [|[k v] items] eqn:Hitems.
  - by apply map_to_list_empty_iff in Hitems.
  - assert (m !! k = Some v) as Hv.
    { apply elem_of_map_to_list. rewrite Hitems. apply list_elem_of_here. }
    cbn [distribute]. by rewrite lookup_fmap, Hv.
Qed.

Lemma update_bandwidth_limits_positive env (s : ClientConnection) :
  mmap_size s ≤ 0 →
  0 < compute_soft_limit env s →
  sum_values (weight_of <$> window_sources s) ≠ 0 →
  update_bandwidth_limits env s =
    Returned
      (assign_window_sources
         (with_share (compute_soft_limit env s)
                     (sum_values (weight_of <$> window_sources s))
          <$> window_sources s)
         (assign_soft_bandwidth_limit (compute_soft_limit env s) s)).
Proof.
  intros Hmmap Hlimit Htotal. unfold update_bandwidth_limits.
  rewrite (proj2 (Z.ltb_ge _ _) Hmmap).
  set (L := compute_soft_limit env s) in *.
  change (soft_bandwidth_limit (assign_soft_bandwidth_limit L s)) with L.
  change (window_sources (assign_soft_bandwidth_limit L s)) with (window_sources s).
  rewrite (proj2 (Z.leb_gt _ _) Hlimit).
  by rewrite distribute_all.
Qed.

(** With a total weight of zero the call returns, writing no limit,
    only when no window is registered; otherwise it raises. *)
Lemma update_bandwidth_limits_zero_total env (s : ClientConnection) :
  mmap_size s ≤ 0 →
  0 < compute_soft_limit env s →
  sum_values (weight_of <$> window_sources s) = 0 →
  update_bandwidth_limits env s =
    if decide (window_sources s = ∅)
    then Returned (assign_window_sources ∅
                     (assign_soft_bandwidth_limit (compute_soft_limit env s) s))
    else Raised ZeroDivisionError
           (assign_window_sources (window_sources s)
              (assign_soft_bandwidth_limit (compute_soft_limit env s) s)).
Proof.
  intros Hmmap Hlimit Htotal. unfold update_bandwidth_limits.
  rewrite (proj2 (Z.ltb_ge _ _) Hmmap).
  set (L := compute_soft_limit env s) in *.
  change (soft_bandwidth_limit (assign_soft_bandwidth_limit L s)) with L.
  change (window_sources (assign_soft_bandwidth_limit L s)) with (window_sources s).
  rewrite (proj2 (Z.leb_gt _ _) Hlimit), Htotal.
  case_decide as Hm.
  - by rewrite Hm, map_to_list_empty.
  - by rewrite distribute_zero_total.
Qed.

Lemma floor_shares_sum_le (L W : Z) (m : gmap Z WS.t) :
  0 < W →
  W = sum_values (weight_of <$> m) →
  sum_values ((λ ws, L * weight_of ws / W) <$> m) ≤ L.
Proof.
  intros HW HWm.
  apply (Z.mul_le_mono_pos_l _ _ W HW).
  rewrite <- sum_fmap_scale.
  transitivity (sum_values ((λ ws, L * weight_of ws) <$> m)).
  - apply sum_fmap_le. intros _ ws _. by apply Z.mul_div_le.
  - rewrite sum_fmap_scale, <- HWm. lia.
Qed.

Lemma floored_share_le (L W w : Z) :
  0 ≤ L → 0 < W → 0 ≤ w →
  Z.max 1 (L * w / W) ≤ L * w / W + (if L * w / W <? 1 then 1 else 0).
Proof.
  intros HL HW Hw.
  assert (0 ≤ L * w / W) by (apply Z.div_pos; nia).
  destruct (Z.ltb_spec (L * w / W) 1); lia.
Qed.

Lemma weight_of_suspended (ws : WS.t) : WS.suspended ws = true → weight_of ws = 0.
Proof. unfold weight_of. by intros ->. Qed.

(** C3, as the code has it.  With a soft limit [L > 0] and a total
    weight [W > 0] the call returns and every registered window of weight
    [w] has its limit set to [max(1, L*w//W)]; this includes the windows
    of weight zero: a suspended window has the limit 1 written. *)
Theorem update_bandwidth_limits_shares env (s : ClientConnection) :
  mmap_size s ≤ 0 →
  let L := compute_soft_limit env s in
  let W := sum_values (weight_of <$> window_sources s) in
  0 < L → 0 < W →
  ∃ s', update_bandwidth_limits env s = Returned s' ∧
        soft_bandwidth_limit s' = L ∧
        dom (window_sources s') = dom (window_sources s) ∧
        ∀ wid ws, window_sources s !! wid = Some ws →
          window_sources s' !! wid
            = Some (WS.assign_bandwidth_limit (Z.max 1 (L * weight_of ws / W)) ws) ∧
          (WS.suspended ws = true →
           window_sources s' !! wid = Some (WS.assign_bandwidth_limit 1 ws)).
Proof.
  intros Hmmap L W HL HW.
  eexists. split; [apply update_bandwidth_limits_positive; [done..|lia]|].
  split; [done|].
  change (window_sources (assign_window_sources ?m _)) with m.
  split; [apply dom_fmap_L|].
  intros wid ws Hws. rewrite lookup_fmap, Hws. split; [done|].
  intros Hs. cbn [fmap option_fmap option_map]. unfold with_share.
  by rewrite (weight_of_suspended _ Hs), Z.mul_0_r, Zdiv_0_l.
Qed.

(** Scenario C: weights 100 and 300 under a soft limit of 1000 give the
    limits 250 and 750. *)
Lemma update_bandwidth_limits_shares_witness :
  ∃ s', update_bandwidth_limits default_env scenario_c = Returned s' ∧
        WS.bandwidth_limit <$> window_sources s' !! 1 = Some 250 ∧
        WS.bandwidth_limit <$> window_sources s' !! 2 = Some 750.
Proof.
  destruct (update_bandwidth_limits_shares default_env scenario_c)
    as (s' & Hs' & _ & _ & Hall); [vm_compute; discriminate | reflexivity..|].
  exists s'. split; [exact Hs'|].
  destruct (Hall 1 (window_example false (10, 10)) eq_refl) as [-> _].
  destruct (Hall 2 (window_example false (10, 30)) eq_refl) as [-> _].
  split; reflexivity.
Defined.

(** C3 fails as stated: a suspended window, of weight zero, next to an
    active one has its limit changed from 0 to 1. *)
Lemma update_bandwidth_limits_writes_suspended :
  window_sources suspended_example !! 2 = Some (window_example true (10, 30)) ∧
  WS.bandwidth_limit (window_example true (10, 30)) = 0 ∧
  0 < compute_soft_limit default_env suspended_example ∧
  0 < sum_values (weight_of <$> window_sources suspended_example) ∧
  ∃ s', update_bandwidth_limits default_env suspended_example = Returned s' ∧
        WS.bandwidth_limit <$> window_sources s' !! 2 = Some 1.
Proof.
  repeat split; try reflexivity.
  eexists. split; [vm_compute; reflexivity|]. reflexivity.
Qed.

(** C4, as the code has it.  For non-negative weights with a total
    [W > 0] and a soft limit [L > 0], every window's limit is at least 1,
    and the limits add up to at most [L] plus the number of windows whose
    exact share [L*w//W] is below 1 (each of these is lifted to 1); so
    the sum stays within [L] when no share is below 1. *)
Theorem update_bandwidth_limits_sum env (s : ClientConnection) :
  mmap_size s ≤ 0 →
  let L := compute_soft_limit env s in
  let W := sum_values (weight_of <$> window_sources s) in
  0 < L → 0 < W →
  map_Forall (λ _ ws, 0 ≤ weight_of ws) (window_sources s) →
  ∃ s', update_bandwidth_limits env s = Returned s' ∧
        soft_bandwidth_limit s' = L ∧
        map_Forall (λ _ ws', 1 ≤ WS.bandwidth_limit ws') (window_sources s') ∧
        sum_limits (window_sources s') ≤ L + starved L W (window_sources s) ∧
        (starved L W (window_sources s) = 0 → sum_limits (window_sources s') ≤ L).
Proof.
  intros Hmmap L W HL HW Hpos.
  eexists. split; [apply update_bandwidth_limits_positive; [done..|lia]|].
  split; [done|].
  change (window_sources (assign_window_sources ?m _)) with m.
  fold L W.
  assert (Hsum : sum_limits (with_share L W <$> window_sources s)
                 ≤ L + starved L W (window_sources s)).
  { unfold sum_limits, starved. rewrite <- map_fmap_compose.
    transitivity (sum_values
      ((λ ws, L * weight_of ws / W + (if L * weight_of ws / W <? 1 then 1 else 0))
         <$> window_sources s)).
    - apply sum_fmap_le. intros k ws Hws.
      apply floored_share_le; [lia | done | by apply (Hpos k)].
    - rewrite sum_fmap_add.
      pose proof (floor_shares_sum_le L W (window_sources s) HW eq_refl). lia. }
  split; [|split; [done | intros Hz; rewrite Hz in Hsum; lia]].
  intros wid ws'. rewrite lookup_fmap.
  destruct (window_sources s !! wid) as [ws|]; [|done].
  intros [= <-]. apply Z.le_max_l.
Qed.

(** In scenario C no share is below 1 and the limits stay within 1000. *)
Lemma update_bandwidth_limits_sum_witness :
  ∃ s', update_bandwidth_limits default_env scenario_c = Returned s' ∧
        sum_limits (window_sources s') ≤ 1000.
Proof.
  destruct (update_bandwidth_limits_sum default_env scenario_c)
    as (s' & Hs' & _ & _ & _ & Hsum);
    [vm_compute; discriminate | reflexivity.. | | ].
  { apply map_Forall_insert_2; [vm_compute; discriminate|].
    apply map_Forall_insert_2; [vm_compute; discriminate|].
    apply map_Forall_empty. }
  exists s'. split; [exact Hs'|]. by apply Hsum.
Defined.

(** C4 fails as stated: with soft limit 1000 and windows of weight
    1000000, 100 and 100 the limits are 999, 1 and 1, whose sum 1001
    exceeds the soft limit. *)
Lemma update_bandwidth_limits_overcommits :
  compute_soft_limit default_env overcommit_example = 1000 ∧
  0 < sum_values (weight_of <$> window_sources overcommit_example) ∧
  ∃ s', update_bandwidth_limits default_env overcommit_example = Returned s' ∧
        soft_bandwidth_limit s' = 1000 ∧
        sum_limits (window_sources s') = 1001 ∧
        ¬ (sum_limits (window_sources s') ≤ soft_bandwidth_limit s').
Proof.
  split; [reflexivity|]. split; [reflexivity|].
  eexists. split; [vm_compute; reflexivity|].
  split; [reflexivity|]. split; [reflexivity|]. vm_compute. by intros H.
Qed.

(** C2, at a session whose only window is suspended: the soft limit is
    1000, the total weight is 0, and the second loop divides by it, so
    the call raises [ZeroDivisionError] after storing the soft limit. *)
Theorem update_bandwidth_limits_all_suspended_raises :
  compute_soft_limit default_env all_suspended_example = 1000 ∧
  sum_values (weight_of <$> window_sources all_suspended_example) = 0 ∧
  update_bandwidth_limits default_env all_suspended_example
  = Raised ZeroDivisionError (assign_soft_bandwidth_limit 1000 all_suspended_example).
Proof. repeat split; vm_compute; reflexivity. Qed.

(** ** Audio / video synchronisation *)

Section AVSyncFacts.
Variable get_sound_source_latency : ClientConnection → Z.

Lemma update_av_sync_delay_total_value (s : ClientConnection) :
  av_sync_delay_total (update_av_sync_delay_total get_sound_source_latency s) =
    if av_sync s
    then clamp (av_sync_delay s + av_sync_delta s + get_sound_source_latency s) 0 1000
    else 0.
Proof. unfold update_av_sync_delay_total. by destruct (av_sync s). Qed.

Lemma update_av_sync_delay_total_windows (s : ClientConnection) :
  window_sources (update_av_sync_delay_total get_sound_source_latency s) =
    WS.set_av_sync_delay
      (av_sync_delay_total (update_av_sync_delay_total get_sound_source_latency s))
    <$> window_sources s.
Proof. unfold update_av_sync_delay_total. by destruct (av_sync s). Qed.

Lemma update_av_sync_delay_total_frame (s : ClientConnection) :
  protocol (update_av_sync_delay_total get_sound_source_latency s) = protocol s ∧
  desktop_size (update_av_sync_delay_total get_sound_source_latency s) = desktop_size s.
Proof. unfold update_av_sync_delay_total. by destruct (av_sync s). Qed.

(** C7. [update_av_sync_delay_total] sets the total to 0 when av-sync is
    disabled and to the sum of client delay, delta and encoder latency
    clamped to [0, 1000] otherwise; the total always lies in [0, 1000],
    and every registered window source receives it. *)
Theorem update_av_sync_delay_total_range (s : ClientConnection) :
  let s' := update_av_sync_delay_total get_sound_source_latency s in
  av_sync_delay_total s' =
    (if av_sync s
     then clamp (av_sync_delay s + av_sync_delta s + get_sound_source_latency s) 0 1000
     else 0) ∧
  0 ≤ av_sync_delay_total s' ≤ 1000 ∧
  dom (window_sources s') = dom (window_sources s) ∧
  map_Forall (λ _ ws, WS.av_sync_delay ws = av_sync_delay_total s') (window_sources s').
Proof.
  intros s'. subst s'.
  split; [apply update_av_sync_delay_total_value|]. split.
  { rewrite update_av_sync_delay_total_value. unfold clamp.
    destruct (av_sync s); lia. }
  rewrite update_av_sync_delay_total_windows. split; [apply dom_fmap_L|].
  intros wid ws. rewrite lookup_fmap.
  destruct (window_sources s !! wid); [|done]. by intros [= <-].
Qed.
End AVSyncFacts.

(** ** Capabilities *)

Lemma checked_desktop_size_spec (w h : Z) :
  checked_desktop_size (Some (w, h)) =
    if bool_decide (0 < w < 32768 ∧ 0 < h < 32768) then Some (w, h) else None.
Proof.
  unfold checked_desktop_size.
  destruct (Z.leb_spec w 0), (Z.leb_spec h 0), (Z.geb_spec w 32768),
           (Z.geb_spec h 32768); cbn [orb];
    (rewrite bool_decide_eq_false_2 by lia) || (rewrite bool_decide_eq_true_2 by lia);
    reflexivity.
Qed.

Lemma parse_bandwidth_limit_frame (c : typedict) (s : ClientConnection) :
  protocol (parse_bandwidth_limit c s) = protocol s.
Proof.
  unfold parse_bandwidth_limit. by destruct (server_bandwidth_limit s <=? 0).
Qed.

Lemma parse_desktop_size_frame (c : typedict) (s : ClientConnection) :
  protocol (parse_desktop_size c s) = protocol s ∧
  desktop_size (parse_desktop_size c s)
  = checked_desktop_size (intpair c "desktop_size" None).
Proof. by split. Qed.

Lemma parse_av_sync_frame latency (c : typedict) (s : ClientConnection) :
  protocol (parse_av_sync latency c s) = protocol s ∧
  desktop_size (parse_av_sync latency c s) = desktop_size s.
Proof.
  unfold parse_av_sync, set_av_sync_delay.
  destruct (update_av_sync_delay_total_frame latency
    (assign_av_sync_delay
       ((if av_sync s && boolget c "av-sync" false then 1 else 0)
        * intget c "av-sync.delay.default" 150) s)) as [-> ->].
  by split.
Qed.

Lemma parse_transport_limits_attached (s : ClientConnection) p :
  protocol s = Some p →
  ∃ s', parse_transport_limits s = Returned s' ∧ desktop_size s' = desktop_size s.
Proof.
  intros Hp. unfold parse_transport_limits.
  destruct (0 <? mmap_size s).
  - change (file_transfer (assign_bandwidth_limit 0 s)) with (file_transfer s).
    change (protocol (assign_bandwidth_limit 0 s)) with (protocol s).
    rewrite Hp. destruct (file_transfer s); by eexists.
  - cbv zeta. rewrite Hp. destruct (file_transfer s); by eexists.
Qed.

Section ParseHelloFacts.
Variable get_sound_source_latency : ClientConnection → Z.
Variable mixins_parse_client_caps : typedict → ClientConnection → ClientConnection.

(** C8. With a transport attached, [parse_hello] returns for every
    [desktop_size] pair sent by the client, keeping the pair when
    [0 < w < 32768] and [0 < h < 32768] and leaving [desktop_size] unset
    otherwise. *)
Theorem parse_hello_desktop_size (c : typedict) (s : ClientConnection) p (w h : Z) :
  (∀ s0, protocol (mixins_parse_client_caps c s0) = protocol s0) →
  protocol s = Some p →
  intpair c "desktop_size" None = Some (w, h) →
  ∃ s', parse_hello get_sound_source_latency mixins_parse_client_caps c s = Returned s' ∧
        desktop_size s' =
          if bool_decide (0 < w < 32768 ∧ 0 < h < 32768) then Some (w, h) else None.
Proof.
  intros Hmix Hp Hc. rewrite <- checked_desktop_size_spec, <- Hc.
  unfold parse_hello. cbv zeta.
  set (s1 := assign_send_notifications (boolget c "notifications" false)
               (mixins_parse_client_caps c s)).
  assert (H1 : protocol s1 = Some p) by (rewrite <- Hp, <- (Hmix s); reflexivity).
  set (s2 := parse_desktop_size c (parse_bandwidth_limit c s1)).
  assert (H2 : protocol s2 = Some p ∧
               desktop_size s2 = checked_desktop_size (intpair c "desktop_size" None)).
  { subst s2. destruct (parse_desktop_size_frame c (parse_bandwidth_limit c s1)) as [-> ->].
    by rewrite parse_bandwidth_limit_frame. }
  destruct H2 as [H2 H2'].
  destruct (parse_av_sync_frame get_sound_source_latency c s2) as [H3 H3'].
  destruct (parse_transport_limits_attached (parse_av_sync get_sound_source_latency c s2) p)
    as (s' & -> & Hs'); [by rewrite H3|].
  exists s'. split; [done|]. by rewrite Hs', H3'.
Qed.
End ParseHelloFacts.

(** Scenario E: the client sends (40000, 10). *)
Lemma parse_hello_desktop_size_witness :
  protocol session_example = Some {| max_packet_size := 262144 |} ∧
  intpair scenario_e_caps "desktop_size" None = Some (40000, 10) ∧
  ∃ s', parse_hello (λ _, 0) (λ _ s, s) scenario_e_caps session_example = Returned s' ∧
        desktop_size s' = None.
Proof.
  split; [reflexivity|]. split; [reflexivity|].
  destruct (parse_hello_desktop_size (λ _, 0) (λ _ s, s) scenario_e_caps session_example
              {| max_packet_size := 262144 |} 40000 10) as (s' & Hs' & Hd);
    [reflexivity..|].
  exists s'. split; [exact Hs' | exact Hd].
Defined.

(** ** Notifications *)

Section NotifyFacts.
Variable encode_utf8 : Arg → Arg.

Lemma notify_show_queued (n : Notification) (s : ClientConnection) :
  let s' := if hello_sent s
            then send_async (o_parts (notify_show_entry encode_utf8 n)) no_kwargs s
            else s in
  notification_callbacks s' = notification_callbacks s ∧
  ordinary_packets s' =
    ordinary_packets s ++
      (if hello_sent s && attached s then [notify_show_entry encode_utf8 n] else []).
Proof.
  cbv zeta. unfold send_async. destruct (hello_sent s); cbn [andb].
  - by rewrite send_notification_callbacks, send_ordinary_packets.
  - by rewrite app_nil_r.
Qed.

(** C9. [notify] returns [False] and leaves the session untouched when
    notifications were not negotiated or the session is suspended;
    otherwise it returns [True], stores the callback it was given under
    the notification id, and queues the show message only once hello has
    been sent.  [notify_close] queues its message only when notifications
    are enabled, the session is not suspended and hello has been sent,
    and never touches the callbacks.  (A queued message needs an
    attached transport, as for every [send].) *)
Theorem notify_gate (n : Notification) (user_callback : option Callback)
    (s : ClientConnection) :
  (if negb (send_notifications s) || suspended s
   then notify encode_utf8 n user_callback s = (false, s)
   else
     let s' := (notify encode_utf8 n user_callback s).2 in
     (notify encode_utf8 n user_callback s).1 = true ∧
     notification_callbacks s' =
       match user_callback with
       | Some cb => <[nid n := cb]> (notification_callbacks s)
       | None => notification_callbacks s
       end ∧
     ordinary_packets s' =
       ordinary_packets s ++
         (if hello_sent s && attached s then [notify_show_entry encode_utf8 n] else [])) ∧
  ∀ nid',
    ordinary_packets (notify_close nid' s) =
      ordinary_packets s ++
        (if send_notifications s && negb (suspended s) && hello_sent s && attached s
         then [notify_close_entry nid'] else []) ∧
    notification_callbacks (notify_close nid' s) = notification_callbacks s.
Proof.
  split.
  - unfold notify.
    destruct (send_notifications s) eqn:Hn; cbn [negb orb]; [|done].
    destruct (suspended s) eqn:Hs; [done|].
    cbv zeta. cbn [fst snd]. split; [done|].
    destruct user_callback as [cb|].
    + exact (notify_show_queued n
               (assign_notification_callbacks (<[nid n := cb]> (notification_callbacks s)) s)).
    + exact (notify_show_queued n s).
  - intros nid'. unfold notify_close.
    destruct (send_notifications s); cbn [negb orb andb]; [|by rewrite app_nil_r].
    destruct (suspended s); cbn [negb orb andb]; [by rewrite app_nil_r|].
    destruct (hello_sent s); cbn [negb orb andb]; [|by rewrite app_nil_r].
    unfold send_more. by rewrite send_notification_callbacks, send_ordinary_packets.
Qed.
End NotifyFacts.

(** Scenario F: before hello the callback is recorded and nothing is
    sent; once hello is sent, closing the notification queues a packet. *)
Example scenario_f :
  let s1 := (notify (λ a, a) notification_example (Some 3%nat) notifying_example).2 in
  let s2 := send_hello (AObj 9) s1 in
  notification_callbacks s1 !! 7 = Some 3%nat ∧
  ordinary_packets s1 = [] ∧
  ordinary_packets (notify_close 7 s2) = ordinary_packets s2 ++ [notify_close_entry 7].
Proof. repeat split; vm_compute; reflexivity. Qed.

(** ** Close and the timers *)

Lemma keeps_core_id : keeps_core (λ s, s).
Proof. by split. Qed.

Lemma schedule_idle_grace_timeout_closed (s : ClientConnection) :
  is_closed s = true →
  handle_set (idle_grace_timer (schedule_idle_grace_timeout s)) = false ∧
  main_loop (schedule_idle_grace_timeout s) ⊆ main_loop s.
Proof.
  intros Hc. unfold schedule_idle_grace_timeout.
  destruct (handle_set (idle_grace_timer s)) eqn:Hh.
  - change (is_closed (assign_idle_grace_timer None (source_remove ?i s)))
      with (is_closed s).
    rewrite Hc, andb_false_r. split; [done|].
    intros t Ht.
    change (t ∈ filter (λ t, timer_id t ≠ default 0 (idle_grace_timer s)) (main_loop s))
      in Ht.
    by apply list_elem_of_filter in Ht as [_ ?].
  - rewrite Hc, andb_false_r. by split.
Qed.

Section IdleAfterClose.
Variable bases_cleanup : ClientConnection → ClientConnection.
Variable cancel_recalculate_timer : ClientConnection → ClientConnection.
Variable idle_timeout_cb : ClientConnection → ClientConnection.

Local Abbreviation close := (close bases_cleanup cancel_recalculate_timer).

Lemma idle_timedout_closed (s : ClientConnection) :
  keeps_core idle_timeout_cb →
  is_closed s = true →
  idle_timer (idle_timedout idle_timeout_cb s) = None ∧
  main_loop (idle_timedout idle_timeout_cb s) = main_loop s ∧
  events (idle_timedout idle_timeout_cb s) = events s ++ [IdleTimeoutCb].
Proof.
  intros Hcb Hc. unfold idle_timedout, is_closed. cbv zeta.
  rewrite (keeps_closed _ Hcb).
  change (closed (assign_events _ (assign_idle_timer None s))) with (closed s).
  unfold is_closed in Hc. rewrite Hc. cbn [negb].
  by rewrite (keeps_idle_timer _ Hcb), (keeps_main_loop _ Hcb), (keeps_events _ Hcb).
Qed.

(** The effects of [close] on the attributes followed here, for any
    session: it marks the session closed, so that [next_packet] returns
    the empty tuple, clears [protocol] and puts one [None] at the end of
    [encode_work_queue]; there is no [source_remove] in it for the idle
    and grace timers, whose handles and pending sources are as before.
    The [is_closed] tests of [idle_timedout] and
    [schedule_idle_grace_timeout] then only stop the re-arming. *)
Lemma close_effects (s : ClientConnection) :
  keeps_core bases_cleanup →
  keeps_core cancel_recalculate_timer →
  (∀ s0, encode_work_queue (cancel_recalculate_timer s0) = encode_work_queue s0) →
  keeps_core idle_timeout_cb →
  let s' := close s in
  is_closed s' = true ∧
  next_packet s' = (empty_packet, s') ∧
  protocol s' = None ∧
  encode_work_queue s' = encode_work_queue (bases_cleanup s) ++ [None] ∧
  idle_timer s' = idle_timer s ∧
  idle_grace_timer s' = idle_grace_timer s ∧
  main_loop s' = main_loop s ∧
  (let s2 := idle_timedout idle_timeout_cb s' in
   idle_timer s2 = None ∧ main_loop s2 = main_loop s' ∧
   events s2 = events s' ++ [IdleTimeoutCb]) ∧
  (let s3 := schedule_idle_grace_timeout s' in
   handle_set (idle_grace_timer s3) = false ∧ main_loop s3 ⊆ main_loop s').
Proof.
  intros Hb Hr Hq Hcb s'.
  assert (Hclosed : is_closed s' = true).
  { subst s'. unfold close, is_closed. cbv zeta.
    change (closed (assign_protocol None ?x)) with (closed x).
    by rewrite (keeps_closed _ Hr). }
  split; [exact Hclosed|].
  split; [by apply next_packet_closed|].
  split; [done|].
  split.
  { subst s'. unfold close. cbv zeta.
    change (encode_work_queue (assign_protocol None ?x)) with (encode_work_queue x).
    by rewrite Hq. }
  split.
  { subst s'. unfold close. cbv zeta.
    change (idle_timer (assign_protocol None ?x)) with (idle_timer x).
    rewrite (keeps_idle_timer _ Hr). apply (keeps_idle_timer _ Hb). }
  split.
  { subst s'. unfold close. cbv zeta.
    change (idle_grace_timer (assign_protocol None ?x)) with (idle_grace_timer x).
    rewrite (keeps_idle_grace_timer _ Hr). apply (keeps_idle_grace_timer _ Hb). }
  split.
  { subst s'. unfold close. cbv zeta.
    change (main_loop (assign_protocol None ?x)) with (main_loop x).
    rewrite (keeps_main_loop _ Hr). apply (keeps_main_loop _ Hb). }
  split.
  - by apply idle_timedout_closed.
  - by apply schedule_idle_grace_timeout_closed.
Qed.
End IdleAfterClose.

(** C6, at a session built with a 60 second idle timeout and then
    closed (the mixins having nothing to clean up).  The session is
    closed, [next_packet] returns the empty tuple and one [None] was
    pushed to [encode_work_queue], as the claim says.  But [close]
    cancelled neither timer: both handles are still set and both sources
    are still pending in the main loop, and when the main loop fires
    them the idle and the grace callback are each invoked on the closed
    session.  [schedule_idle_timeout], which has no [is_closed] test
    where [schedule_idle_grace_timeout] has one, even arms a new idle
    source on the closed session, as [user_event] would. *)
Theorem close_leaves_timers_pending :
  is_closed closed_example = true ∧
  next_packet closed_example = (empty_packet, closed_example) ∧
  encode_work_queue closed_example = [None] ∧
  idle_timer closed_example = Some 2 ∧
  idle_grace_timer closed_example = Some 1 ∧
  main_loop closed_example =
    [ {| timer_id := 1; timer_delay := 50000; timer_cb := IdleGraceTimedout |};
      {| timer_id := 2; timer_delay := 60000; timer_cb := IdleTimedout |} ] ∧
  events closed_example = [] ∧
  events (fire (λ s, s) (λ s, s) 2 closed_example) = [IdleTimeoutCb] ∧
  events (fire (λ s, s) (λ s, s) 1 closed_example) = [IdleGraceTimeoutCb] ∧
  main_loop (schedule_idle_timeout (schedule_idle_grace_timeout closed_example)) =
    [ {| timer_id := 3; timer_delay := 60000; timer_cb := IdleTimedout |} ] ∧
  idle_timer (schedule_idle_timeout (schedule_idle_grace_timeout closed_example)) = Some 3.
Proof. repeat split; vm_compute; reflexivity. Qed.

(** ** The scheduler, over several pulls *)

Lemma next_packet_ordinary_step (s : ClientConnection) e rest :
  is_closed s = false →
  ordinary_packets s = e :: rest →
  ∃ r, next_packet s = (r, assign_ordinary_packets rest s) ∧
       packet r = Some (o_parts e) ∧
       have_more r = bool_decide (rest ≠ [] ∨ packet_queue s ≠ []).
Proof.
  intros Ho He. unfold next_packet. rewrite Ho, He. cbn [negb].
  eexists. split; [reflexivity|]. split; [reflexivity|].
  cbn [have_more]. unfold compute_have_more, queues_nonempty.
  change (ordinary_packets (assign_ordinary_packets rest s)) with rest.
  change (packet_queue (assign_ordinary_packets rest s)) with (packet_queue s).
  destruct rest, (packet_queue s); reflexivity || (cbn; symmetry; apply bool_decide_eq_true_2; auto)
    || (cbn; symmetry; apply bool_decide_eq_false_2; intros [?|?]; congruence).
Qed.

Lemma next_packet_bulk_step (s : ClientConnection) e rest :
  is_closed s = false →
  ordinary_packets s = [] →
  packet_queue s = e :: rest →
  ∃ r, next_packet s = (r, assign_packet_queue rest s) ∧
       packet r = b_packet e ∧
       have_more r = bool_decide (is_Some (b_packet e)) && bool_decide (rest ≠ []).
Proof.
  intros Ho He Hb. unfold next_packet. rewrite Ho, He, Hb. cbn [negb].
  eexists. split; [reflexivity|]. split; [reflexivity|].
  cbn [have_more]. unfold compute_have_more, queues_nonempty. f_equal.
  change (ordinary_packets (assign_packet_queue rest s)) with (ordinary_packets s).
  change (packet_queue (assign_packet_queue rest s)) with rest.
  rewrite He. by destruct rest.
Qed.

Lemma next_packet_idle (s : ClientConnection) :
  ordinary_packets s = [] → packet_queue s = [] → next_packet s = (empty_packet, s).
Proof. intros Ho Hb. unfold next_packet. rewrite Ho, Hb. by destruct (is_closed s). Qed.

Lemma flags_cons (b : bool) (n : nat) :
  b = bool_decide (n ≠ 0%nat) →
  b :: (replicate (n - 1) true ++ replicate (n `min` 1) false)
  = replicate (S n - 1) true ++ replicate (S n `min` 1) false.
Proof.
  intros ->. destruct n as [|n]; [done|].
  rewrite bool_decide_eq_true_2 by done.
  replace (S (S n) - 1)%nat with (S (S n - 1)) by lia.
  replace (S (S n) `min` 1)%nat with (S n `min` 1)%nat by lia. done.
Qed.

Lemma pull_bulk (bs : list BulkEntry) (s : ClientConnection) :
  is_closed s = false →
  ordinary_packets s = [] →
  packet_queue s = bs →
  ∃ rs s', pull (length bs) s = (rs, s') ∧
    packet <$> rs = b_packet <$> bs ∧
    (Forall (λ e, is_Some (b_packet e)) bs →
     have_more <$> rs
     = replicate (length bs - 1) true ++ replicate (length bs `min` 1) false) ∧
    is_closed s' = false ∧ ordinary_packets s' = [] ∧ packet_queue s' = [].
Proof.
  revert s. induction bs as [|e rest IH]; intros s Ho He Hb.
  - exists [], s. by repeat split.
  - destruct (next_packet_bulk_step s e rest Ho He Hb) as (r & Hr & Hp & Hm).
    destruct (IH (assign_packet_queue rest s) Ho He eq_refl)
      as (rs & s' & Hpull & Hps & Hms & Hc' & Ho' & Hb').
    exists (r :: rs), s'. cbn [pull length]. rewrite Hr, Hpull.
    split; [done|]. split; [by rewrite !fmap_cons, Hp, Hps|].
    split; [|done].
    intros [Hsome Hrest]%Forall_cons. rewrite fmap_cons, (Hms Hrest).
    apply flags_cons. rewrite Hm, (bool_decide_eq_true_2 _ Hsome). cbn [andb].
    apply bool_decide_ext. by destruct rest.
Qed.

Lemma pull_queues (os : list OrdinaryEntry) (bs : list BulkEntry) (s : ClientConnection) :
  is_closed s = false →
  ordinary_packets s = os →
  packet_queue s = bs →
  ∃ rs s', pull (length os + length bs) s = (rs, s') ∧
    packet <$> rs = ((λ e, Some (o_parts e)) <$> os) ++ (b_packet <$> bs) ∧
    (Forall (λ e, is_Some (b_packet e)) bs →
     have_more <$> rs
     = replicate (length os + length bs - 1) true
       ++ replicate ((length os + length bs) `min` 1) false) ∧
    is_closed s' = false ∧ ordinary_packets s' = [] ∧ packet_queue s' = [].
Proof.
  revert s. induction os as [|e rest IH]; intros s Ho He Hb.
  - by apply pull_bulk.
  - destruct (next_packet_ordinary_step s e rest Ho He) as (r & Hr & Hp & Hm).
    destruct (IH (assign_ordinary_packets rest s) Ho eq_refl Hb)
      as (rs & s' & Hpull & Hps & Hms & Hc' & Ho' & Hb').
    exists (r :: rs), s'. cbn [pull length Nat.add]. rewrite Hr, Hpull.
    split; [done|]. split; [by rewrite !fmap_cons, Hp, Hps|].
    split; [|done].
    intros Hsome. rewrite fmap_cons, (Hms Hsome).
    apply flags_cons. rewrite Hm, Hb. apply bool_decide_ext.
    destruct rest, bs; cbn [length Nat.add]; split; intros; try done; try lia; auto.
    by destruct H.
Qed.

(** X1. Pulling as many times as there are queued entries hands out
    every ordinary entry in queue order, then every bulk entry in queue
    order, each exactly once; both queues are then empty and a further
    pull returns the empty tuple. *)
Theorem pull_delivers_in_order (s : ClientConnection) :
  is_closed s = false →
  let n := (length (ordinary_packets s) + length (packet_queue s))%nat in
  packet <$> (pull n s).1
  = ((λ e, Some (o_parts e)) <$> ordinary_packets s) ++ (b_packet <$> packet_queue s) ∧
  ordinary_packets (pull n s).2 = [] ∧
  packet_queue (pull n s).2 = [] ∧
  next_packet (pull n s).2 = (empty_packet, (pull n s).2).
Proof.
  intros Ho n. subst n.
  destruct (pull_queues (ordinary_packets s) (packet_queue s) s Ho eq_refl eq_refl)
    as (rs & s' & -> & Hps & _ & _ & Ho' & Hb').
  cbn [fst snd]. split; [done|]. split; [done|]. split; [done|].
  by apply next_packet_idle.
Qed.

Lemma pull_delivers_in_order_witness :
  is_closed queued_example = false ∧
  packet <$> (pull 2 queued_example).1 = [Some [AStr "startup-complete"]; Some [AStr "draw"]].
Proof.
  split; [reflexivity|].
  exact (proj1 (pull_delivers_in_order queued_example eq_refl)).
Defined.

(** X2. When every bulk entry carries a packet, [have_more] is true for
    each tuple handed out except the last one, for which it is false. *)
Theorem pull_have_more (s : ClientConnection) :
  is_closed s = false →
  Forall (λ e, is_Some (b_packet e)) (packet_queue s) →
  let n := (length (ordinary_packets s) + length (packet_queue s))%nat in
  have_more <$> (pull n s).1 = replicate (n - 1) true ++ replicate (n `min` 1) false.
Proof.
  intros Ho Hsome n. subst n.
  destruct (pull_queues (ordinary_packets s) (packet_queue s) s Ho eq_refl eq_refl)
    as (rs & s' & -> & _ & Hms & _).
  by apply Hms.
Qed.

Lemma pull_have_more_witness :
  have_more <$> (pull 2 queued_example).1 = [true; false].
Proof.
  apply (pull_have_more queued_example eq_refl).
  apply Forall_cons. split; [by eexists | apply Forall_nil_2].
Defined.

(** X3. On an open session with a transport and no ordinary entry
    queued, what [send] queues is what the next pull returns: the parts
    themselves, [synchronous] true unless given, [will_have_more] the
    negation of [synchronous] unless given, the given failure callback;
    the transport was woken up once.  Through [send_more]
    [will_have_more] is always true; through [send_async] [synchronous]
    is always false. *)
Theorem send_then_next_packet parts kwargs (s : ClientConnection) p :
  is_closed s = false →
  protocol s = Some p →
  ordinary_packets s = [] →
  let sent f := (next_packet (f parts kwargs s)).1 in
  let after f := (next_packet (f parts kwargs s)).2 in
  (packet (sent send) = Some parts ∧
   synchronous (sent send) = default true (kw_synchronous kwargs) ∧
   will_have_more (sent send)
   = default (negb (default true (kw_synchronous kwargs))) (kw_will_have_more kwargs) ∧
   fail_cb (sent send) = kw_fail_cb kwargs ∧
   have_more (sent send) = bool_decide (packet_queue s ≠ []) ∧
   ordinary_packets (after send) = [] ∧
   packet_queue (after send) = packet_queue s ∧
   source_has_more_calls (after send) = S (source_has_more_calls s)) ∧
  (packet (sent send_more) = Some parts ∧ will_have_more (sent send_more) = true) ∧
  (packet (sent send_async) = Some parts ∧ synchronous (sent send_async) = false ∧
   will_have_more (sent send_async) = default true (kw_will_have_more kwargs)).
Proof.
  intros Ho Hp He sent after.
  assert (Hsend : ∀ k, ∃ r,
    next_packet (send parts k s)
    = (r, assign_ordinary_packets []
            (assign_source_has_more_calls (S (source_has_more_calls s))
               (assign_ordinary_packets
                  [{| o_parts := parts;
                      o_synchronous := default true (kw_synchronous k);
                      o_fail_cb := kw_fail_cb k;
                      o_will_have_more :=
                        default (negb (default true (kw_synchronous k)))
                                (kw_will_have_more k) |}] s))) ∧
    packet r = Some parts ∧
    synchronous r = default true (kw_synchronous k) ∧
    will_have_more r
    = default (negb (default true (kw_synchronous k))) (kw_will_have_more k) ∧
    fail_cb r = kw_fail_cb k ∧
    have_more r = bool_decide (packet_queue s ≠ [])).
  { intros k. unfold send. rewrite Hp, He. cbv zeta. rewrite app_nil_l.
    unfold next_packet.
    match goal with |- context [is_closed ?x] => change (is_closed x) with (is_closed s) end.
    rewrite Ho. cbn [negb].
    match goal with |- context [ordinary_packets ?x] =>
      change (ordinary_packets x) with
        [{| o_parts := parts;
            o_synchronous := default true (kw_synchronous k);
            o_fail_cb := kw_fail_cb k;
            o_will_have_more :=
              default (negb (default true (kw_synchronous k)))
                      (kw_will_have_more k) |}] end.
    cbv iota zeta. eexists. split; [reflexivity|]. repeat split.
    cbn [have_more]. unfold compute_have_more, queues_nonempty.
    match goal with |- context [packet_queue ?x] =>
      change (packet_queue x) with (packet_queue s) end.
    match goal with |- context [ordinary_packets ?x] =>
      change (ordinary_packets x) with (@nil OrdinaryEntry) end.
    destruct (packet_queue s) as [|b l].
    - by rewrite (bool_decide_eq_false_2 ([] ≠ [])) by (intros H; by apply H).
    - by rewrite (bool_decide_eq_true_2 (b :: l ≠ [])) by done. }
  subst sent after. unfold send_more, send_async.
  repeat match goal with
         | |- context [send parts ?k s] =>
             let H := fresh in
             destruct (Hsend k) as (? & H & ? & ? & ? & ? & ?); rewrite H; clear H
         end.
  cbn [fst snd kw_synchronous kw_will_have_more kw_fail_cb default] in *.
  repeat split; done.
Qed.

Lemma send_then_next_packet_witness :
  packet (next_packet (send [AStr "startup-complete"] no_kwargs session_example)).1
  = Some [AStr "startup-complete"].
Proof.
  exact (proj1 (proj1 (send_then_next_packet [AStr "startup-complete"] no_kwargs
                         session_example {| max_packet_size := 262144 |}
                         eq_refl eq_refl eq_refl))).
Defined.

(** ** Timers *)

Lemma schedule_idle_timeout_view (s : ClientConnection) :
  let s' := schedule_idle_timeout s in
  main_loop s' =
    (if handle_set (idle_timer s)
     then filter (λ t, timer_id t ≠ default 0 (idle_timer s)) (main_loop s)
     else main_loop s)
    ++ (if 0 <? idle_timeout s
        then [ {| timer_id := next_source_id s;
                  timer_delay := idle_timeout s * 1000;
                  timer_cb := IdleTimedout |} ]
        else []) ∧
  idle_timer s' =
    (if 0 <? idle_timeout s then Some (next_source_id s)
     else if handle_set (idle_timer s) then None else idle_timer s) ∧
  next_source_id s' =
    (if 0 <? idle_timeout s then next_source_id s + 1 else next_source_id s) ∧
  idle_grace_timer s' = idle_grace_timer s ∧
  idle_timeout s' = idle_timeout s ∧
  idle_grace_duration s' = idle_grace_duration s ∧
  closed s' = closed s ∧
  events s' = events s.
Proof.
  cbv zeta. unfold schedule_idle_timeout, timeout_add, source_remove.
  destruct (handle_set (idle_timer s)); cbv zeta.
  - change (idle_timeout (assign_idle_timer None ?x)) with (idle_timeout s).
    destruct (0 <? idle_timeout s); repeat split; by rewrite ?app_nil_r.
  - destruct (0 <? idle_timeout s); repeat split; by rewrite ?app_nil_r.
Qed.

Lemma schedule_idle_grace_timeout_view (s : ClientConnection) :
  let s' := schedule_idle_grace_timeout s in
  let arm := (0 <? idle_timeout s) && negb (is_closed s) in
  main_loop s' =
    (if handle_set (idle_grace_timer s)
     then filter (λ t, timer_id t ≠ default 0 (idle_grace_timer s)) (main_loop s)
     else main_loop s)
    ++ (if arm
        then [ {| timer_id := next_source_id s;
                  timer_delay := Z.max 0 ((idle_timeout s - idle_grace_duration s) * 1000);
                  timer_cb := IdleGraceTimedout |} ]
        else []) ∧
  idle_grace_timer s' =
    (if arm then Some (next_source_id s)
     else if handle_set (idle_grace_timer s) then None else idle_grace_timer s) ∧
  next_source_id s' = (if arm then next_source_id s + 1 else next_source_id s) ∧
  idle_timer s' = idle_timer s ∧
  idle_timeout s' = idle_timeout s ∧
  idle_grace_duration s' = idle_grace_duration s ∧
  closed s' = closed s ∧
  events s' = events s.
Proof.
  cbv zeta. unfold schedule_idle_grace_timeout, timeout_add, source_remove.
  destruct (handle_set (idle_grace_timer s)); cbv zeta.
  - change (idle_timeout (assign_idle_grace_timer None ?x)) with (idle_timeout s).
    change (is_closed (assign_idle_grace_timer None ?x)) with (is_closed s).
    destruct ((0 <? idle_timeout s) && negb (is_closed s));
      repeat split; by rewrite ?app_nil_r.
  - destruct ((0 <? idle_timeout s) && negb (is_closed s));
      repeat split; by rewrite ?app_nil_r.
Qed.

Lemma ids_for_remove cb (h : Z) (l : list Timer) :
  ids_for cb (filter (λ t, timer_id t ≠ h) l) = filter (λ i, i ≠ h) (ids_for cb l).
Proof.
  unfold ids_for. induction l as [|t l IH]; [done|].
  rewrite !filter_cons.
  destruct (decide (timer_id t ≠ h)), (decide (timer_cb t = cb));
    rewrite ?filter_cons, ?fmap_cons, ?filter_cons;
    rewrite ?decide_True by done; rewrite ?decide_False by done;
    rewrite ?fmap_cons; by rewrite IH.
Qed.

Lemma ids_for_add cb (l : list Timer) (t : Timer) :
  ids_for cb (l ++ [t]) = ids_for cb l ++ (if decide (timer_cb t = cb) then [timer_id t] else []).
Proof.
  unfold ids_for. rewrite filter_app, fmap_app. f_equal.
  rewrite filter_cons, filter_nil. by destruct (decide (timer_cb t = cb)).
Qed.

Lemma ids_for_elem cb (l : list Timer) (id : Z) :
  id ∈ ids_for cb l ↔ ∃ t, t ∈ l ∧ timer_cb t = cb ∧ timer_id t = id.
Proof.
  unfold ids_for. rewrite list_elem_of_fmap. split.
  - intros (t & -> & [Hcb Ht]%list_elem_of_filter). eauto.
  - intros (t & Ht & Hcb & <-). exists t. split; [done|]. by apply list_elem_of_filter.
Qed.

Lemma ids_for_range cb (l : list Timer) (next id : Z) :
  Forall (λ t, 0 < timer_id t < next) l → id ∈ ids_for cb l → 0 < id < next.
Proof.
  intros Hr (t & Ht & _ & <-)%ids_for_elem.
  by apply (proj1 (Forall_forall _ _) Hr).
Qed.

Lemma filter_ne_option_list (h : Z) (o : option Z) :
  o ≠ Some h → filter (λ i, i ≠ h) (option_list o) = option_list o.
Proof.
  destruct o as [g|]; [|done]. intros Hne. change (option_list (Some g)) with [g].
  rewrite filter_cons, decide_True; [done|]. congruence.
Qed.

Lemma filter_ne_self (h : Z) : filter (λ i : Z, i ≠ h) [h] = [].
Proof. by rewrite filter_cons, decide_False by (intros H; by apply H). Qed.

Lemma Forall_range_weaken (l : list Timer) (next : Z) :
  Forall (λ t, 0 < timer_id t < next) l → Forall (λ t, 0 < timer_id t < next + 1) l.
Proof. intros H. eapply Forall_impl; [exact H|]. intros t. cbn. lia. Qed.

Lemma Forall_range_remove (l : list Timer) (next h : Z) :
  Forall (λ t, 0 < timer_id t < next) l →
  Forall (λ t, 0 < timer_id t < next) (filter (λ t, timer_id t ≠ h) l).
Proof.
  rewrite !Forall_forall. intros Hr t [_ Ht]%list_elem_of_filter. by apply Hr.
Qed.

Lemma timers_view_handles l next idle grace :
  timers_view_ok l next idle grace →
  (∀ id, idle = Some id → 0 < id < next) ∧ (∀ id, grace = Some id → 0 < id < next).
Proof.
  intros (_ & Hr & _ & Hi & Hg). split; intros id ->.
  - apply (ids_for_range IdleTimedout l); [done|]. rewrite Hi. apply list_elem_of_here.
  - apply (ids_for_range IdleGraceTimedout l); [done|]. rewrite Hg. apply list_elem_of_here.
Qed.

Lemma handle_set_ok l next idle grace :
  timers_view_ok l next idle grace →
  handle_set idle = bool_decide (is_Some idle) ∧ handle_set grace = bool_decide (is_Some grace).
Proof.
  intros [Hi Hg]%timers_view_handles. split.
  - destruct idle as [id|]; [|done]. cbn. specialize (Hi id eq_refl).
    by rewrite (proj2 (Z.eqb_neq id 0)) by lia.
  - destruct grace as [id|]; [|done]. cbn. specialize (Hg id eq_refl).
    by rewrite (proj2 (Z.eqb_neq id 0)) by lia.
Qed.

(** Removing the source recorded in a handle, and arming a new one. *)
Lemma view_cancel_idle l next idle grace :
  timers_view_ok l next idle grace →
  timers_view_ok
    (if handle_set idle then filter (λ t, timer_id t ≠ default 0 idle) l else l)
    next None grace.
Proof.
  intros Hok. destruct (handle_set_ok _ _ _ _ Hok) as [-> _].
  destruct Hok as (Hn & Hr & Hd & Hi & Hg).
  destruct idle as [h|]; cbn [bool_decide default].
  - rewrite bool_decide_eq_true_2 by eauto.
    split; [done|]. split; [by apply Forall_range_remove|]. split; [done|].
    rewrite !ids_for_remove, Hi, Hg. split; [apply filter_ne_self|].
    apply filter_ne_option_list. by apply Hd.
  - rewrite bool_decide_eq_false_2 by (by intros [? ?]). by repeat split.
Qed.

Lemma view_cancel_grace l next idle grace :
  timers_view_ok l next idle grace →
  timers_view_ok
    (if handle_set grace then filter (λ t, timer_id t ≠ default 0 grace) l else l)
    next idle None.
Proof.
  intros Hok. destruct (handle_set_ok _ _ _ _ Hok) as [_ ->].
  destruct Hok as (Hn & Hr & Hd & Hi & Hg).
  destruct grace as [h|]; cbn [bool_decide default].
  - rewrite bool_decide_eq_true_2 by eauto.
    split; [done|]. split; [by apply Forall_range_remove|]. split; [done|].
    rewrite !ids_for_remove, Hi, Hg. split; [|apply filter_ne_self].
    apply filter_ne_option_list. intros ->. by apply (Hd h).
  - rewrite bool_decide_eq_false_2 by (by intros [? ?]). by repeat split.
Qed.

Lemma view_arm_idle l next grace delay :
  timers_view_ok l next None grace →
  timers_view_ok
    (l ++ [ {| timer_id := next; timer_delay := delay; timer_cb := IdleTimedout |} ])
    (next + 1) (Some next) grace.
Proof.
  intros Hok. pose proof (timers_view_handles _ _ _ _ Hok) as [_ Hgr].
  destruct Hok as (Hn & Hr & Hd & Hi & Hg).
  split; [lia|]. split.
  { apply Forall_app. split; [by apply Forall_range_weaken|].
    apply Forall_singleton. cbn. lia. }
  split. { intros id [= <-] ->. specialize (Hgr next eq_refl). lia. }
  rewrite !ids_for_add, Hi, Hg. cbn [timer_cb timer_id].
  rewrite decide_True by done. rewrite decide_False by done.
  split; [reflexivity | by rewrite app_nil_r].
Qed.

Lemma view_arm_grace l next idle delay :
  timers_view_ok l next idle None →
  timers_view_ok
    (l ++ [ {| timer_id := next; timer_delay := delay; timer_cb := IdleGraceTimedout |} ])
    (next + 1) idle (Some next).
Proof.
  intros Hok. pose proof (timers_view_handles _ _ _ _ Hok) as [Hid _].
  destruct Hok as (Hn & Hr & Hd & Hi & Hg).
  split; [lia|]. split.
  { apply Forall_app. split; [by apply Forall_range_weaken|].
    apply Forall_singleton. cbn. lia. }
  split. { intros id -> [= <-]. specialize (Hid next eq_refl). lia. }
  rewrite !ids_for_add, Hi, Hg. cbn [timer_cb timer_id].
  rewrite decide_False by done. rewrite decide_True by done.
  split; [by rewrite app_nil_r | reflexivity].
Qed.

Lemma handle_cleared l next idle grace :
  timers_view_ok l next idle grace →
  (if handle_set idle then None else idle) = None ∧
  (if handle_set grace then None else grace) = None.
Proof.
  intros [-> ->]%handle_set_ok. split.
  - destruct idle; [by rewrite bool_decide_eq_true_2 by eauto | done].
  - destruct grace; [by rewrite bool_decide_eq_true_2 by eauto | done].
Qed.

Lemma schedule_idle_timeout_ok (s : ClientConnection) :
  timers_ok s → timers_ok (schedule_idle_timeout s).
Proof.
  intros Hok. unfold timers_ok.
  destruct (schedule_idle_timeout_view s) as (-> & -> & -> & -> & _).
  destruct (handle_cleared _ _ _ _ Hok) as [Hc _].
  apply view_cancel_idle in Hok.
  destruct (0 <? idle_timeout s).
  - by apply view_arm_idle.
  - by rewrite app_nil_r, Hc.
Qed.

Lemma schedule_idle_grace_timeout_ok (s : ClientConnection) :
  timers_ok s → timers_ok (schedule_idle_grace_timeout s).
Proof.
  intros Hok. unfold timers_ok.
  destruct (schedule_idle_grace_timeout_view s) as (-> & -> & -> & -> & _).
  destruct (handle_cleared _ _ _ _ Hok) as [_ Hc].
  apply view_cancel_grace in Hok.
  destruct ((0 <? idle_timeout s) && negb (is_closed s)).
  - by apply view_arm_grace.
  - by rewrite app_nil_r, Hc.
Qed.

Lemma init_timers_ok env p t limit av : timers_ok (init env p t limit av).
Proof.
  unfold init. apply schedule_idle_timeout_ok, schedule_idle_grace_timeout_ok.
  unfold timers_ok. cbn. by repeat split.
Qed.

Lemma keeps_core_timers f : keeps_core f → keeps_timers f.
Proof. intros []. by split. Qed.

Section CloseTimers.
Variable bases_cleanup : ClientConnection → ClientConnection.
Variable cancel_recalculate_timer : ClientConnection → ClientConnection.

Lemma close_keeps_timer_attributes :
  keeps_timers bases_cleanup →
  keeps_timers cancel_recalculate_timer →
  keeps_timers (close bases_cleanup cancel_recalculate_timer).
Proof.
  intros Hb Hr. split; intros s; unfold close; cbv zeta.
  - change (idle_timeout (assign_protocol None ?x)) with (idle_timeout x).
    rewrite (kt_idle_timeout _ Hr). apply (kt_idle_timeout _ Hb).
  - change (idle_timer (assign_protocol None ?x)) with (idle_timer x).
    rewrite (kt_idle_timer _ Hr). apply (kt_idle_timer _ Hb).
  - change (idle_grace_timer (assign_protocol None ?x)) with (idle_grace_timer x).
    rewrite (kt_idle_grace_timer _ Hr). apply (kt_idle_grace_timer _ Hb).
  - change (main_loop (assign_protocol None ?x)) with (main_loop x).
    rewrite (kt_main_loop _ Hr). apply (kt_main_loop _ Hb).
  - change (next_source_id (assign_protocol None ?x)) with (next_source_id x).
    rewrite (kt_next_source_id _ Hr). apply (kt_next_source_id _ Hb).
Qed.
End CloseTimers.

Lemma keeps_timers_ok f (s : ClientConnection) :
  keeps_timers f → timers_ok s → timers_ok (f s).
Proof.
  intros Hf. unfold timers_ok.
  by rewrite (kt_main_loop _ Hf), (kt_next_source_id _ Hf), (kt_idle_timer _ Hf),
             (kt_idle_grace_timer _ Hf).
Qed.

Section FireFacts.
Variable idle_timeout_cb : ClientConnection → ClientConnection.
Variable idle_grace_timeout_cb : ClientConnection → ClientConnection.
Hypothesis idle_cb_keeps : keeps_timers idle_timeout_cb.
Hypothesis grace_cb_keeps : keeps_timers idle_grace_timeout_cb.

(** The session as the idle callback leaves it. *)
Local Abbreviation after_idle_cb s :=
  (idle_timeout_cb (assign_events (events (assign_idle_timer None s) ++ [IdleTimeoutCb])
                      (assign_idle_timer None s))).

Lemma idle_timedout_view (s : ClientConnection) :
  let rearm := negb (is_closed (after_idle_cb s)) && (0 <? idle_timeout s) in
  let s' := idle_timedout idle_timeout_cb s in
  main_loop s' =
    main_loop s ++
    (if rearm
     then [ {| timer_id := next_source_id s; timer_delay := idle_timeout s * 1000;
               timer_cb := IdleTimedout |} ]
     else []) ∧
  idle_timer s' = (if rearm then Some (next_source_id s) else None) ∧
  next_source_id s' = (if rearm then next_source_id s + 1 else next_source_id s) ∧
  idle_grace_timer s' = idle_grace_timer s.
Proof.
  cbv zeta. unfold idle_timedout. cbv zeta.
  set (s2 := after_idle_cb s).
  assert (Hl : main_loop s2 = main_loop s)
    by (subst s2; by rewrite (kt_main_loop _ idle_cb_keeps)).
  assert (Hi : idle_timer s2 = None)
    by (subst s2; by rewrite (kt_idle_timer _ idle_cb_keeps)).
  assert (Hg : idle_grace_timer s2 = idle_grace_timer s)
    by (subst s2; by rewrite (kt_idle_grace_timer _ idle_cb_keeps)).
  assert (Hn : next_source_id s2 = next_source_id s)
    by (subst s2; by rewrite (kt_next_source_id _ idle_cb_keeps)).
  assert (Ht : idle_timeout s2 = idle_timeout s)
    by (subst s2; by rewrite (kt_idle_timeout _ idle_cb_keeps)).
  destruct (is_closed s2); cbn [negb andb].
  - by rewrite app_nil_r, Hl, Hi, Hg, Hn.
  - destruct (schedule_idle_timeout_view s2) as (-> & -> & -> & -> & _).
    rewrite Hi, Hl, Hg, Hn, Ht. cbn [handle_set].
    by destruct (0 <? idle_timeout s).
Qed.

Lemma idle_grace_timedout_view (s : ClientConnection) :
  let s' := idle_grace_timedout idle_grace_timeout_cb s in
  main_loop s' = main_loop s ∧
  idle_grace_timer s' = None ∧
  idle_timer s' = idle_timer s ∧
  next_source_id s' = next_source_id s.
Proof.
  cbv zeta. unfold idle_grace_timedout. cbv zeta.
  rewrite (kt_main_loop _ grace_cb_keeps), (kt_idle_grace_timer _ grace_cb_keeps),
          (kt_idle_timer _ grace_cb_keeps), (kt_next_source_id _ grace_cb_keeps).
  by repeat split.
Qed.

Lemma pending_handle (s : ClientConnection) (t : Timer) :
  timers_ok s → t ∈ main_loop s →
  match timer_cb t with
  | IdleTimedout => idle_timer s = Some (timer_id t)
  | IdleGraceTimedout => idle_grace_timer s = Some (timer_id t)
  end.
Proof.
  intros (_ & _ & _ & Hi & Hg) Ht.
  destruct (timer_cb t) eqn:Hcb.
  - assert (Hin : timer_id t ∈ ids_for IdleTimedout (main_loop s))
      by (apply ids_for_elem; eauto).
    rewrite Hi in Hin. destruct (idle_timer s); [|by apply not_elem_of_nil in Hin].
    apply list_elem_of_singleton in Hin. by subst.
  - assert (Hin : timer_id t ∈ ids_for IdleGraceTimedout (main_loop s))
      by (apply ids_for_elem; eauto).
    rewrite Hg in Hin. destruct (idle_grace_timer s); [|by apply not_elem_of_nil in Hin].
    apply list_elem_of_singleton in Hin. by subst.
Qed.

Lemma fire_ok (id : Z) (s : ClientConnection) :
  timers_ok s → timers_ok (fire idle_timeout_cb idle_grace_timeout_cb id s).
Proof.
  intros Hok. unfold fire.
  destruct (list_find _ _) as [[i t]|] eqn:Hfind; [|done].
  apply list_find_Some in Hfind as (Ht%list_elem_of_lookup_2 & Hid & _).
  pose proof (pending_handle s t Hok Ht) as Hh. rewrite Hid in Hh.
  pose proof (timers_view_handles _ _ _ _ Hok) as [Hri Hrg].
  unfold timers_ok, source_remove, run_callback.
  change (main_loop (assign_main_loop ?l _)) with l.
  destruct (timer_cb t).
  - change (next_source_id (assign_main_loop _ ?x)) with (next_source_id x).
    change (idle_timer (assign_main_loop _ ?x)) with (idle_timer x).
    change (idle_grace_timer (assign_main_loop _ ?x)) with (idle_grace_timer x).
    destruct (idle_timedout_view s) as (-> & -> & -> & ->).
    apply view_cancel_idle in Hok. rewrite Hh in Hok. cbn [handle_set default] in Hok.
    specialize (Hri id Hh).
    rewrite (proj2 (Z.eqb_neq id 0)) in Hok by lia. cbn [negb] in Hok.
    rewrite filter_app.
    destruct (negb _ && _).
    + rewrite filter_cons, decide_True by (cbn; lia). rewrite filter_nil.
      by apply view_arm_idle.
    + by rewrite filter_nil, app_nil_r.
  - change (next_source_id (assign_main_loop _ ?x)) with (next_source_id x).
    change (idle_timer (assign_main_loop _ ?x)) with (idle_timer x).
    change (idle_grace_timer (assign_main_loop _ ?x)) with (idle_grace_timer x).
    destruct (idle_grace_timedout_view s) as (-> & -> & -> & ->).
    apply view_cancel_grace in Hok. rewrite Hh in Hok. cbn [handle_set default] in Hok.
    specialize (Hrg id Hh).
    rewrite (proj2 (Z.eqb_neq id 0)) in Hok by lia. by cbn [negb] in Hok.
Qed.
End FireFacts.

Lemma ids_for_length cb (l : list Timer) (h : option Z) :
  ids_for cb l = option_list h → (length (ids_for cb l) ≤ 1)%nat.
Proof. intros ->. destruct h; cbn; lia. Qed.

Section TimerTheorems.
Variable idle_timeout_cb : ClientConnection → ClientConnection.
Variable idle_grace_timeout_cb : ClientConnection → ClientConnection.
Variable bases_cleanup : ClientConnection → ClientConnection.
Variable cancel_recalculate_timer : ClientConnection → ClientConnection.

Local Abbreviation run :=
  (run_ops idle_timeout_cb idle_grace_timeout_cb bases_cleanup cancel_recalculate_timer).

Lemma run_ops_ok (ops : list TimerOp) (s : ClientConnection) :
  keeps_timers idle_timeout_cb →
  keeps_timers idle_grace_timeout_cb →
  keeps_timers bases_cleanup →
  keeps_timers cancel_recalculate_timer →
  timers_ok s → timers_ok (run s ops).
Proof.
  intros Hi Hg Hb Hr. revert s.
  induction ops as [|op ops IH]; intros s Hok; [done|].
  unfold run_ops. cbn [foldl]. apply IH.
  destruct op; cbn [run_op].
  - by apply schedule_idle_timeout_ok.
  - by apply schedule_idle_grace_timeout_ok.
  - by apply fire_ok.
  - by apply keeps_timers_ok; [apply close_keeps_timer_attributes|].
Qed.

(** X4. Whatever sequence of re-scheduling, timer firing and [close]
    follows the construction, and provided the callbacks and the mixins
    leave the timer attributes alone, at most one idle source and one
    grace source are pending, and they are the ones recorded in
    [idle_timer] and [idle_grace_timer] (none when the handle is [None]). *)
Theorem one_pending_timer_each env p (t limit : Z) av (ops : list TimerOp) :
  keeps_timers idle_timeout_cb →
  keeps_timers idle_grace_timeout_cb →
  keeps_timers bases_cleanup →
  keeps_timers cancel_recalculate_timer →
  let s := run (init env p t limit av) ops in
  pending IdleTimedout s = option_list (idle_timer s) ∧
  pending IdleGraceTimedout s = option_list (idle_grace_timer s) ∧
  (length (pending IdleTimedout s) ≤ 1)%nat ∧
  (length (pending IdleGraceTimedout s) ≤ 1)%nat.
Proof.
  intros Hi Hg Hb Hr s.
  assert (Hok : timers_ok s) by (by apply run_ops_ok; [..|apply init_timers_ok]).
  destruct Hok as (_ & _ & _ & Hpi & Hpg).
  split; [done|]. split; [done|].
  split; eapply ids_for_length; eassumption.
Qed.
End TimerTheorems.

Lemma keeps_timers_id : keeps_timers (λ s, s).
Proof. by split. Qed.

(** After an idle timeout, a user event and a second idle timeout the
    session holds the grace source 4 and the idle source 6. *)
Lemma one_pending_timer_each_witness :
  let s := run_ops (λ s, s) (λ s, s) (λ s, s) (λ s, s) session_example
             [Fire 2; ScheduleGrace; ScheduleIdle; Fire 5] in
  pending IdleTimedout s = [6] ∧ pending IdleGraceTimedout s = [4] ∧
  idle_timer s = Some 6 ∧ idle_grace_timer s = Some 4.
Proof.
  pose proof (one_pending_timer_each (λ s, s) (λ s, s) (λ s, s) (λ s, s)
                default_env {| max_packet_size := 262144 |} 60 0 true
                [Fire 2; ScheduleGrace; ScheduleIdle; Fire 5]
                keeps_timers_id keeps_timers_id keeps_timers_id keeps_timers_id)
    as (H1 & H2 & _).
  cbv zeta. split; [etransitivity; [exact H1 | reflexivity]|].
  split; [etransitivity; [exact H2 | reflexivity]|].
  split; reflexivity.
Defined.

(** X5. Construction arms the grace timer, then the idle timer, when
    [idle_timeout > 0]: the grace source is due after
    [max(0, (idle_timeout - grace)*1000)] ms, strictly before the idle
    source, due after [idle_timeout*1000] ms.  With [idle_timeout <= 0]
    nothing is armed. *)
Theorem init_arms_timers env p (t limit : Z) av :
  let s := init env p t limit av in
  let grace_delay := Z.max 0 ((t - grace_duration env t) * 1000) in
  if 0 <? t then
    main_loop s =
      [ {| timer_id := 1; timer_delay := grace_delay; timer_cb := IdleGraceTimedout |};
        {| timer_id := 2; timer_delay := t * 1000; timer_cb := IdleTimedout |} ] ∧
    idle_grace_timer s = Some 1 ∧ idle_timer s = Some 2 ∧
    grace_delay < t * 1000
  else
    main_loop s = [] ∧ idle_grace_timer s = None ∧ idle_timer s = None.
Proof.
  cbv zeta. unfold init.
  match goal with |- context [schedule_idle_grace_timeout ?x] => set (s0 := x) end.
  destruct (schedule_idle_timeout_view (schedule_idle_grace_timeout s0))
    as (-> & -> & _ & -> & _).
  destruct (schedule_idle_grace_timeout_view s0) as (-> & -> & -> & -> & -> & _).
  subst s0. cbn [idle_timeout idle_timer idle_grace_timer main_loop next_source_id
                 idle_grace_duration is_closed closed handle_set negb andb].
  rewrite andb_true_r.
  destruct (Z.ltb_spec 0 t) as [Ht|Ht]; cbn [app].
  - split; [done|]. split; [done|]. split; [done|].
    unfold grace_duration. lia.
  - done.
Qed.

Lemma filter_remove_other cb (id : Z) (l : list Timer) :
  Forall (λ t, timer_cb t = cb → timer_id t ≠ id) l →
  filter (λ t, timer_cb t = cb) (filter (λ t, timer_id t ≠ id) l)
  = filter (λ t, timer_cb t = cb) l.
Proof.
  induction l as [|t l IH]; [done|]. intros [Ht Hl]%Forall_cons.
  rewrite (filter_cons (λ t, timer_id t ≠ id)), (filter_cons (λ t, timer_cb t = cb) t l).
  destruct (decide (timer_cb t = cb)) as [Hcb|Hcb].
  - rewrite decide_True by auto. rewrite filter_cons, decide_True by done.
    by rewrite IH.
  - destruct (decide (timer_id t ≠ id)); [|by apply IH].
    rewrite filter_cons, decide_False by done. by apply IH.
Qed.

Section FireIdle.
Variable idle_timeout_cb : ClientConnection → ClientConnection.
Variable idle_grace_timeout_cb : ClientConnection → ClientConnection.

(** X6. When the pending idle source fires, the idle callback runs and
    then, if the session is still open (the callback may have closed it)
    and [idle_timeout > 0], exactly one new idle source is armed for
    another [idle_timeout*1000] ms; otherwise no idle source is left.
    The grace timer is neither re-armed nor cancelled. *)
Theorem fire_idle_rearms (id : Z) (s : ClientConnection) :
  keeps_timers idle_timeout_cb →
  timers_ok s →
  idle_timer s = Some id →
  let s1 := idle_timeout_cb
              (assign_events (events s ++ [IdleTimeoutCb]) (assign_idle_timer None s)) in
  let rearm := negb (is_closed s1) && (0 <? idle_timeout s) in
  let s' := fire idle_timeout_cb idle_grace_timeout_cb id s in
  filter (λ t, timer_cb t = IdleTimedout) (main_loop s') =
    (if rearm
     then [ {| timer_id := next_source_id s; timer_delay := idle_timeout s * 1000;
               timer_cb := IdleTimedout |} ]
     else []) ∧
  idle_timer s' = (if rearm then Some (next_source_id s) else None) ∧
  filter (λ t, timer_cb t = IdleGraceTimedout) (main_loop s')
  = filter (λ t, timer_cb t = IdleGraceTimedout) (main_loop s) ∧
  idle_grace_timer s' = idle_grace_timer s.
Proof.
  intros Hcb Hok Hh s1 rearm s'.
  pose proof Hok as (_ & _ & Hd & Hi & Hg).
  pose proof (timers_view_handles _ _ _ _ Hok) as [Hri _].
  specialize (Hri id Hh).
  (* the source found under [id] is the idle one *)
  assert (Hin : id ∈ ids_for IdleTimedout (main_loop s))
    by (rewrite Hi, Hh; apply list_elem_of_here).
  apply ids_for_elem in Hin as (t0 & Ht0 & Hcb0 & Hid0).
  subst s'. unfold fire.
  destruct (list_find _ _) as [[i t]|] eqn:Hfind.
  2:{ apply list_find_None in Hfind.
      by apply (proj1 (Forall_forall _ _) Hfind t0) in Hid0. }
  apply list_find_Some in Hfind as (Ht%list_elem_of_lookup_2 & Hid & _).
  pose proof (pending_handle s t Hok Ht) as Hpt. rewrite Hid in Hpt.
  destruct (timer_cb t); [|by apply (Hd id Hh) in Hpt].
  unfold source_remove, run_callback.
  change (main_loop (assign_main_loop ?l _)) with l.
  change (idle_timer (assign_main_loop _ ?x)) with (idle_timer x).
  change (idle_grace_timer (assign_main_loop _ ?x)) with (idle_grace_timer x).
  destruct (idle_timedout_view idle_timeout_cb Hcb s) as (-> & -> & _ & ->).
  change (negb (is_closed (idle_timeout_cb
            (assign_events (events (assign_idle_timer None s) ++ [IdleTimeoutCb])
               (assign_idle_timer None s)))) && (0 <? idle_timeout s)) with rearm.
  assert (Hnone : filter (λ t, timer_cb t = IdleTimedout)
                    (filter (λ t, timer_id t ≠ id) (main_loop s)) = []).
  { apply fmap_nil_inv with (f := timer_id).
    change (ids_for IdleTimedout (filter (λ t, timer_id t ≠ id) (main_loop s)) = []).
    by rewrite ids_for_remove, Hi, Hh, filter_ne_self. }
  assert (Hsame : filter (λ t, timer_cb t = IdleGraceTimedout)
                    (filter (λ t, timer_id t ≠ id) (main_loop s))
                  = filter (λ t, timer_cb t = IdleGraceTimedout) (main_loop s)).
  { apply filter_remove_other. apply Forall_forall. intros t' Ht' Hcb' Hid'.
    pose proof (pending_handle s t' Hok Ht') as Hpt'.
    rewrite Hcb', Hid' in Hpt'. by apply (Hd id Hh). }
  destruct rearm; rewrite !filter_app, Hnone, Hsame.
  - rewrite (filter_cons (λ t, timer_id t ≠ id)), decide_True by (cbn; lia).
    rewrite filter_nil, !filter_cons, filter_nil. cbn [timer_cb].
    rewrite (decide_True (P := IdleTimedout = IdleTimedout)) by done.
    rewrite (decide_False (P := IdleTimedout = IdleGraceTimedout)) by done.
    by rewrite app_nil_r.
  - rewrite !filter_nil. by rewrite !app_nil_r.
Qed.
End FireIdle.

(** The server's idle callback disconnects the client: with [close] as
    the callback, nothing is pending for the idle timer afterwards. *)
Lemma fire_idle_rearms_witness :
  let s' := fire (close (λ s, s) (λ s, s)) (λ s, s) 2 session_example in
  is_closed s' = true ∧
  filter (λ t, timer_cb t = IdleTimedout) (main_loop s') = [] ∧
  idle_timer s' = None.
Proof.
  pose proof (fire_idle_rearms (close (λ s, s) (λ s, s)) (λ s, s) 2 session_example
                (close_keeps_timer_attributes _ _ keeps_timers_id keeps_timers_id)
                (init_timers_ok _ _ _ _ _) eq_refl) as (H1 & H2 & _).
  cbv zeta. split; [reflexivity|]. split; [exact H1 | exact H2].
Defined.

(** ** The soft limit and the allocation *)

Lemma compute_soft_limit_cases env (s : ClientConnection) :
  let L := compute_soft_limit env s in
  let speed := avg_congestion_send_speed s in
  (0 < L ↔ BANDWIDTH_DETECTION env = true ∧ 0 < speed ≤ 20 * 1024 * 1024) ∧
  (0 < L → L = if 0 <? bandwidth_limit s then Z.min (bandwidth_limit s) speed else speed) ∧
  (0 < bandwidth_limit s → L ≤ bandwidth_limit s) ∧
  L ≤ 20 * 1024 * 1024.
Proof.
  cbv zeta. unfold compute_soft_limit.
  destruct (BANDWIDTH_DETECTION env);
    destruct (Z.ltb_spec (20 * 1024 * 1024) (avg_congestion_send_speed s));
    destruct (Z.ltb_spec 0 (bandwidth_limit s));
    (split; [split; [intros ?; split; [reflexivity || lia | lia]
                    | intros [Hd ?]; (discriminate Hd || lia)]
            | split; [intros ?; lia | split; [intros ?|]; lia]]).
Qed.

(** X7. The soft limit is positive exactly when bandwidth detection is on
    and a congestion speed in (0, 20*1024*1024] was measured; it is then
    that speed, capped by the session's limit when this one is positive.
    In particular a configured limit alone never gives a positive soft
    limit, and the soft limit never exceeds a positive configured limit. *)
Theorem compute_soft_limit_positive env (s : ClientConnection) :
  let L := compute_soft_limit env s in
  let speed := avg_congestion_send_speed s in
  (0 < L ↔ BANDWIDTH_DETECTION env = true ∧ 0 < speed ≤ 20 * 1024 * 1024) ∧
  (0 < L → L = if 0 <? bandwidth_limit s then Z.min (bandwidth_limit s) speed else speed) ∧
  (0 < bandwidth_limit s → L ≤ bandwidth_limit s) ∧
  L ≤ 20 * 1024 * 1024.
Proof. apply compute_soft_limit_cases. Qed.

(** X8. Unless no mmap area is in use, detection is on and a congestion
    speed in (0, 20*1024*1024] was measured, [update_bandwidth_limits]
    returns and leaves every window source as it was. *)
Theorem update_bandwidth_limits_unconstrained env (s : ClientConnection) :
  0 < mmap_size s ∨ BANDWIDTH_DETECTION env = false ∨
  avg_congestion_send_speed s ≤ 0 ∨ 20 * 1024 * 1024 < avg_congestion_send_speed s →
  ∃ s', update_bandwidth_limits env s = Returned s' ∧
        window_sources s' = window_sources s ∧
        (mmap_size s ≤ 0 → soft_bandwidth_limit s' ≤ 0).
Proof.
  intros Hcase. unfold update_bandwidth_limits.
  destruct (Z.ltb_spec 0 (mmap_size s)) as [Hm|Hm].
  { exists s. split; [done|]. split; [done|]. lia. }
  assert (HL : compute_soft_limit env s ≤ 0).
  { destruct (compute_soft_limit_cases env s) as [Hpos _].
    destruct (Z.le_gt_cases (compute_soft_limit env s) 0) as [|Hgt]; [done|].
    apply Hpos in Hgt as [Hd Hs]. destruct Hcase as [?|[?|[?|?]]]; [lia|congruence|lia..]. }
  cbv zeta.
  change (soft_bandwidth_limit (assign_soft_bandwidth_limit ?L s)) with L.
  rewrite (proj2 (Z.leb_le _ _) HL).
  eexists. split; [reflexivity|]. by split.
Qed.

(** Scenario B: 25 Mbit/s measured, no configured limit. *)
Lemma update_bandwidth_limits_unconstrained_witness :
  ∃ s', update_bandwidth_limits default_env scenario_b = Returned s' ∧
        window_sources s' = window_sources scenario_b ∧
        soft_bandwidth_limit s' = 0.
Proof.
  destruct (update_bandwidth_limits_unconstrained default_env scenario_b)
    as (s' & Hs' & Hw & _).
  { right. right. right. reflexivity. }
  exists s'. split; [exact Hs'|]. split; [exact Hw|].
  assert (Heq : Returned s' = Returned (assign_soft_bandwidth_limit 0 scenario_b))
    by (rewrite <- Hs'; reflexivity).
  by injection Heq as ->.
Defined.

Lemma assign_soft_bandwidth_limit_twice (v w : Z) (s : ClientConnection) :
  assign_soft_bandwidth_limit v (assign_soft_bandwidth_limit w s)
  = assign_soft_bandwidth_limit v s.
Proof. by destruct s. Qed.

Lemma assign_allocation_twice (l : Z) (m m' : gmap Z WS.t) (s : ClientConnection) :
  assign_window_sources m
    (assign_soft_bandwidth_limit l (assign_window_sources m' (assign_soft_bandwidth_limit l s)))
  = assign_window_sources m (assign_soft_bandwidth_limit l s).
Proof. by destruct s. Qed.

Lemma weight_of_with_share (L W : Z) (ws : WS.t) :
  weight_of (with_share L W ws) = weight_of ws.
Proof. reflexivity. Qed.

Lemma with_share_twice (L W : Z) (ws : WS.t) :
  with_share L W (with_share L W ws) = with_share L W ws.
Proof. reflexivity. Qed.

(** X9. [update_bandwidth_limits] is idempotent: run again on the
    session it returned, it returns that session unchanged. *)
Theorem update_bandwidth_limits_idempotent env (s s' : ClientConnection) :
  update_bandwidth_limits env s = Returned s' →
  update_bandwidth_limits env s' = Returned s'.
Proof.
  intros Hs.
  destruct (Z.ltb_spec 0 (mmap_size s)) as [Hm|Hm].
  { unfold update_bandwidth_limits in Hs.
    rewrite (proj2 (Z.ltb_lt _ _) Hm) in Hs. injection Hs as <-.
    unfold update_bandwidth_limits. by rewrite (proj2 (Z.ltb_lt _ _) Hm). }
  set (L := compute_soft_limit env s).
  destruct (Z.le_gt_cases L 0) as [HL|HL].
  { (* only the soft limit is stored *)
    assert (Heq : s' = assign_soft_bandwidth_limit L s).
    { unfold update_bandwidth_limits in Hs.
      rewrite (proj2 (Z.ltb_ge _ _) Hm) in Hs. cbv zeta in Hs.
      change (soft_bandwidth_limit (assign_soft_bandwidth_limit ?x s)) with x in Hs.
      fold L in Hs. rewrite (proj2 (Z.leb_le _ _) HL) in Hs. by injection Hs as <-. }
    subst s'. unfold update_bandwidth_limits.
    change (mmap_size (assign_soft_bandwidth_limit L s)) with (mmap_size s).
    rewrite (proj2 (Z.ltb_ge _ _) Hm). cbv zeta.
    change (compute_soft_limit env (assign_soft_bandwidth_limit L s)) with L.
    change (soft_bandwidth_limit (assign_soft_bandwidth_limit ?x _)) with x.
    rewrite (proj2 (Z.leb_le _ _) HL).
    by rewrite assign_soft_bandwidth_limit_twice. }
  set (W := sum_values (weight_of <$> window_sources s)).
  destruct (decide (W = 0)) as [HW|HW].
  { (* a zero total: the call returned, so no window is registered *)
    rewrite (update_bandwidth_limits_zero_total env s Hm) in Hs by (done || lia).
    case_decide as Hempty; [|done]. injection Hs as <-.
    rewrite (update_bandwidth_limits_zero_total env); [| done | done |].
    - change (window_sources (assign_window_sources ?m _)) with m.
      rewrite decide_True by done.
      change (compute_soft_limit env (assign_window_sources ∅ ?x)) with L.
      by rewrite assign_allocation_twice.
    - change (window_sources (assign_window_sources ?m _)) with m.
      by rewrite fmap_empty. }
  rewrite (update_bandwidth_limits_positive env s Hm) in Hs by (done || lia).
  injection Hs as <-. fold L W.
  rewrite update_bandwidth_limits_positive; [| done | done |].
  - change (window_sources (assign_window_sources ?m _)) with m.
    change (compute_soft_limit env (assign_window_sources _ ?x)) with L.
    rewrite <- !map_fmap_compose.
    rewrite (map_fmap_ext (weight_of ∘ with_share L W) weight_of)
      by (intros; apply weight_of_with_share).
    fold W.
    rewrite (map_fmap_ext (with_share L W ∘ with_share L W) (with_share L W))
      by (intros; apply with_share_twice).
    by rewrite assign_allocation_twice.
  - change (window_sources (assign_window_sources ?m _)) with m.
    rewrite <- map_fmap_compose.
    rewrite (map_fmap_ext (weight_of ∘ with_share L W) weight_of)
      by (intros; apply weight_of_with_share).
    done.
Qed.

Lemma update_bandwidth_limits_idempotent_witness :
  ∃ s', update_bandwidth_limits default_env scenario_c = Returned s' ∧
        update_bandwidth_limits default_env s' = Returned s'.
Proof.
  eexists. split; [vm_compute; reflexivity|].
  apply (update_bandwidth_limits_idempotent default_env scenario_c).
  vm_compute. reflexivity.
Defined.

Lemma sum_fmap_const {A} (c : Z) (m : gmap Z A) :
  sum_values ((λ _, c) <$> m) = c * Z.of_nat (size m).
Proof.
  induction m as [|k a m Hk IH] using map_ind.
  - rewrite fmap_empty, sum_values_empty, map_size_empty. lia.
  - rewrite sum_fmap_insert, map_size_insert_None by done. lia.
Qed.

Lemma floor_shares_sum_gt (L W : Z) (m : gmap Z WS.t) :
  0 < W →
  W = sum_values (weight_of <$> m) →
  L - Z.of_nat (size m) < sum_values ((λ ws, L * weight_of ws / W) <$> m).
Proof.
  intros HW HWm.
  assert (Hsize : 0 < Z.of_nat (size m)).
  { destruct (decide (m = ∅)) as [->|Hne].
    - rewrite fmap_empty, sum_values_empty in HWm. lia.
    - apply map_size_non_empty_iff in Hne. lia. }
  apply (Z.mul_lt_mono_pos_l W); [done|].
  rewrite <- sum_fmap_scale.
  apply Z.lt_le_trans with
    (sum_values ((λ ws, L * weight_of ws + (1 - W)) <$> m)).
  - rewrite sum_fmap_add, sum_fmap_scale, sum_fmap_const, <- HWm. nia.
  - apply sum_fmap_le. intros _ ws _.
    pose proof (Z.mod_pos_bound (L * weight_of ws) W HW).
    pose proof (Z.div_mod (L * weight_of ws) W ltac:(lia)). lia.
Qed.

(** X10. With a soft limit [L > 0] and a total weight [W > 0] the limits
    handed out add up to more than [L] minus the number of windows:
    rounding down loses less than one unit per window. *)
Theorem update_bandwidth_limits_uses_limit env (s : ClientConnection) :
  mmap_size s ≤ 0 →
  let L := compute_soft_limit env s in
  let W := sum_values (weight_of <$> window_sources s) in
  0 < L → 0 < W →
  ∃ s', update_bandwidth_limits env s = Returned s' ∧
        L - Z.of_nat (size (window_sources s)) < sum_limits (window_sources s').
Proof.
  intros Hmmap L W HL HW.
  eexists. split; [apply update_bandwidth_limits_positive; [done..|lia]|].
  change (window_sources (assign_window_sources ?m _)) with m. fold L W.
  apply Z.lt_le_trans with
    (sum_values ((λ ws, L * weight_of ws / W) <$> window_sources s)).
  - by apply floor_shares_sum_gt.
  - unfold sum_limits. rewrite <- map_fmap_compose.
    apply sum_fmap_le. intros _ ws _. cbn. apply Z.le_max_r.
Qed.

Lemma update_bandwidth_limits_uses_limit_witness :
  ∃ s', update_bandwidth_limits default_env scenario_c = Returned s' ∧
        1000 - 2 < sum_limits (window_sources s').
Proof.
  destruct (update_bandwidth_limits_uses_limit default_env scenario_c)
    as (s' & Hs' & Hsum); [vm_compute; discriminate | reflexivity..|].
  exists s'. split; [exact Hs' | exact Hsum].
Defined.

(** X11. The allocation follows the weights: of two windows of the same
    session the heavier one never gets the smaller limit, and a window
    that carries the whole weight gets the whole soft limit. *)
Theorem update_bandwidth_limits_by_weight env (s : ClientConnection) :
  mmap_size s ≤ 0 →
  let L := compute_soft_limit env s in
  let W := sum_values (weight_of <$> window_sources s) in
  0 < L → 0 < W →
  ∃ s', update_bandwidth_limits env s = Returned s' ∧
    (∀ i j wi wj wi' wj',
       window_sources s !! i = Some wi → window_sources s !! j = Some wj →
       window_sources s' !! i = Some wi' → window_sources s' !! j = Some wj' →
       weight_of wi ≤ weight_of wj →
       WS.bandwidth_limit wi' ≤ WS.bandwidth_limit wj') ∧
    (∀ i wi wi',
       window_sources s !! i = Some wi → window_sources s' !! i = Some wi' →
       weight_of wi = W → WS.bandwidth_limit wi' = L).
Proof.
  intros Hmmap L W HL HW.
  eexists. split; [apply update_bandwidth_limits_positive; [done..|lia]|].
  change (window_sources (assign_window_sources ?m _)) with m. fold L W.
  split.
  - intros i j wi wj wi' wj' Hi Hj. rewrite !lookup_fmap, Hi, Hj.
    intros [= <-] [= <-] Hle. cbn.
    apply Z.max_le_compat_l, Z.div_le_mono; [lia|].
    apply Z.mul_le_mono_nonneg_l; lia.
  - intros i wi wi' Hi. rewrite lookup_fmap, Hi. intros [= <-] Hw. cbn.
    rewrite Hw, Z.div_mul by lia. lia.
Qed.

Lemma update_bandwidth_limits_by_weight_witness :
  ∃ s', update_bandwidth_limits default_env scenario_c = Returned s' ∧
        WS.bandwidth_limit <$> window_sources s' !! 1 = Some 250 ∧
        WS.bandwidth_limit <$> window_sources s' !! 2 = Some 750.
Proof.
  destruct (update_bandwidth_limits_by_weight default_env scenario_c)
    as (s' & Hs' & _); [vm_compute; discriminate | reflexivity..|].
  exists s'. split; [exact Hs'|].
  assert (Heq : Returned s' = update_bandwidth_limits default_env scenario_c)
    by (by rewrite Hs').
  vm_compute in Heq. injection Heq as ->. split; reflexivity.
Defined.

(** ** Negotiated limits *)

Lemma update_av_sync_delay_total_keeps latency (s : ClientConnection) :
  let s' := update_av_sync_delay_total latency s in
  bandwidth_limit s' = bandwidth_limit s ∧ mmap_size s' = mmap_size s ∧
  av_sync_delay s' = av_sync_delay s ∧ av_sync s' = av_sync s.
Proof.
  cbv zeta. unfold update_av_sync_delay_total.
  destruct (av_sync s) eqn:E; repeat split; try reflexivity; exact E.
Qed.

Lemma parse_transport_limits_bandwidth (s : ClientConnection) p :
  protocol s = Some p →
  ∃ s', parse_transport_limits s = Returned s' ∧
        bandwidth_limit s' = (if 0 <? mmap_size s then 0 else bandwidth_limit s) ∧
        av_sync_delay s' = av_sync_delay s ∧
        av_sync_delay_total s' = av_sync_delay_total s.
Proof.
  intros Hp. unfold parse_transport_limits.
  destruct (0 <? mmap_size s).
  - change (file_transfer (assign_bandwidth_limit 0 s)) with (file_transfer s).
    change (protocol (assign_bandwidth_limit 0 s)) with (protocol s).
    rewrite Hp. destruct (file_transfer s); by eexists.
  - cbv zeta. rewrite Hp. destruct (file_transfer s); by eexists.
Qed.

Section Negotiation.
Variable get_sound_source_latency : ClientConnection → Z.
Variable mixins_parse_client_caps : typedict → ClientConnection → ClientConnection.

(** X12. After [parse_hello], with [s0] the session as the mixins left
    it: the bandwidth limit is 0 when an mmap area is in use, the
    client's value when the server has no limit, and otherwise the
    smaller of the two, so that it never exceeds a positive server
    limit.  The client's av-sync delay is its default value when both
    sides enable av-sync and 0 otherwise, and the total delay lies in
    [0, 1000], being 0 when the server has av-sync disabled. *)
Theorem parse_hello_negotiates (c : typedict) (s : ClientConnection) p :
  (∀ s0, protocol (mixins_parse_client_caps c s0) = protocol s0) →
  protocol s = Some p →
  let s0 := mixins_parse_client_caps c s in
  let client_limit := intget c "bandwidth-limit" 0 in
  ∃ s', parse_hello get_sound_source_latency mixins_parse_client_caps c s = Returned s' ∧
    bandwidth_limit s' =
      (if 0 <? mmap_size s0 then 0
       else if server_bandwidth_limit s0 <=? 0 then client_limit
       else Z.min (server_bandwidth_limit s0) client_limit) ∧
    (0 < server_bandwidth_limit s0 → bandwidth_limit s' ≤ server_bandwidth_limit s0) ∧
    av_sync_delay s' =
      (if av_sync s0 && boolget c "av-sync" false
       then intget c "av-sync.delay.default" 150 else 0) ∧
    0 ≤ av_sync_delay_total s' ≤ 1000 ∧
    (av_sync s0 = false → av_sync_delay_total s' = 0).
Proof.
  intros Hmix Hp s0 client_limit.
  unfold parse_hello. cbv zeta. fold s0.
  set (s1 := assign_send_notifications (boolget c "notifications" false) s0).
  set (s2 := parse_bandwidth_limit c s1).
  set (s3 := parse_desktop_size c s2).
  set (s4 := parse_av_sync get_sound_source_latency c s3).
  assert (Hb2 : bandwidth_limit s2 =
                if server_bandwidth_limit s0 <=? 0 then client_limit
                else Z.min (server_bandwidth_limit s0) client_limit).
  { subst s2. unfold parse_bandwidth_limit. cbv zeta.
    change (server_bandwidth_limit s1) with (server_bandwidth_limit s0).
    by destruct (server_bandwidth_limit s0 <=? 0). }
  assert (Hf2 : protocol s2 = Some p ∧ mmap_size s2 = mmap_size s0 ∧
                av_sync s2 = av_sync s0).
  { subst s2. unfold parse_bandwidth_limit. cbv zeta.
    change (server_bandwidth_limit s1) with (server_bandwidth_limit s0).
    destruct (server_bandwidth_limit s0 <=? 0);
      (split; [subst s0; rewrite <- Hp, <- (Hmix s); reflexivity | by split]). }
  destruct Hf2 as (Hp2 & Hm2 & Ha2).
  set (v := (if av_sync s3 && boolget c "av-sync" false then 1 else 0)
            * intget c "av-sync.delay.default" 150).
  assert (Hs4 : s4 = update_av_sync_delay_total get_sound_source_latency
                       (assign_av_sync_delay v s3)) by reflexivity.
  destruct (update_av_sync_delay_total_keeps get_sound_source_latency
              (assign_av_sync_delay v s3)) as (Hb4 & Hm4 & Hd4 & Ha4).
  destruct (update_av_sync_delay_total_frame get_sound_source_latency
              (assign_av_sync_delay v s3)) as (Hp4 & _).
  pose proof (update_av_sync_delay_total_value get_sound_source_latency
                (assign_av_sync_delay v s3)) as Ht4.
  rewrite <- Hs4 in Hb4, Hm4, Hd4, Ha4, Hp4, Ht4.
  assert (Hr4 : 0 ≤ av_sync_delay_total s4 ≤ 1000).
  { rewrite Ht4. unfold clamp. destruct (av_sync _); lia. }
  change (bandwidth_limit (assign_av_sync_delay v s3)) with (bandwidth_limit s2) in Hb4.
  change (mmap_size (assign_av_sync_delay v s3)) with (mmap_size s2) in Hm4.
  change (av_sync_delay (assign_av_sync_delay v s3)) with v in Hd4.
  change (av_sync (assign_av_sync_delay v s3)) with (av_sync s2) in Ha4, Ht4.
  change (protocol (assign_av_sync_delay v s3)) with (protocol s2) in Hp4.
  destruct (parse_transport_limits_bandwidth s4 p) as (s' & -> & Hb' & Hd' & Ht');
    [by rewrite Hp4|].
  exists s'. split; [done|].
  rewrite Hb', Hd', Ht', Hm4, Hm2, Hb4, Hb2, Hd4.
  split; [done|]. split.
  { intros Hpos. destruct (0 <? mmap_size s0); [lia|].
    rewrite (proj2 (Z.leb_gt _ _) Hpos). lia. }
  split.
  { subst v. change (av_sync s3) with (av_sync s2). rewrite Ha2.
    destruct (av_sync s0 && boolget c "av-sync" false); lia. }
  split; [done|].
  intros Hoff. rewrite Ht4, Ha2, Hoff. done.
Qed.
End Negotiation.

(** A server limit of 1000 against a client asking for 5000. *)
Lemma parse_hello_negotiates_witness :
  ∃ s', parse_hello (λ _, 0) (λ _ s, s)
          {| boolget := λ _ d, d;
             intget := λ k d, if decide (k = "bandwidth-limit") then 5000 else d;
             intpair := λ _ d, d |}
          (init default_env {| max_packet_size := 262144 |} 60 1000 true)
        = Returned s' ∧ bandwidth_limit s' = 1000.
Proof.
  destruct (parse_hello_negotiates (λ _, 0) (λ _ s, s)
              {| boolget := λ _ d, d;
                 intget := λ k d, if decide (k = "bandwidth-limit") then 5000 else d;
                 intpair := λ _ d, d |}
              (init default_env {| max_packet_size := 262144 |} 60 1000 true)
              {| max_packet_size := 262144 |}) as (s' & Hs' & Hb & _);
    [reflexivity..|].
  exists s'. split; [exact Hs' | exact Hb].
Defined.

(** ** Messages gated on hello *)

Lemma on_core_same (f : ClientConnection → ClientConnection) (ss : Session) :
  f (core ss) = core ss → on_core f ss = ss.
Proof. unfold on_core. intros ->. by destruct ss. Qed.

Lemma send_keeps_flags parts kwargs (s : ClientConnection) :
  hello_sent (send parts kwargs s) = hello_sent s ∧
  send_notifications (send parts kwargs s) = send_notifications s ∧
  suspended (send parts kwargs s) = suspended s ∧
  protocol (send parts kwargs s) = protocol s.
Proof. unfold send. destruct (protocol s) eqn:E; repeat split; try reflexivity; exact E. Qed.

Lemma run_gated_before_hello (call : GatedCall) (ss : Session) :
  hello_sent (core ss) = false → run_gated ss call = ss.
Proof.
  intros Hh. destruct call; cbn [run_gated].
  - apply on_core_same. unfold send_webcam_ack. by rewrite Hh.
  - apply on_core_same. unfold send_webcam_stop. by rewrite Hh.
  - apply on_core_same. unfold send_client_command. by rewrite Hh.
  - apply on_core_same. unfold rpc_reply. by rewrite Hh.
  - apply on_core_same. unfold notify_close. by rewrite Hh, !orb_true_r.
  - unfold show_desktop. by rewrite Hh, andb_false_r.
  - unfold updated_desktop_size. by rewrite Hh.
Qed.

(** X13. Before hello is sent, no sequence of [send_webcam_ack],
    [send_webcam_stop], [send_client_command], [rpc_reply],
    [notify_close], [show_desktop] and [updated_desktop_size] changes the
    session; so on a session with a transport the hello packet queued by
    [send_hello] comes right after what was queued before these calls. *)
Theorem gated_calls_before_hello (calls : list GatedCall) (capabilities : Arg)
    (ss : Session) :
  hello_sent (core ss) = false →
  foldl run_gated ss calls = ss ∧
  ordinary_packets (send_hello capabilities (core (foldl run_gated ss calls))) =
    ordinary_packets (core ss) ++
      (if attached (core ss)
       then [ {| o_parts := [AStr "hello"; capabilities]; o_synchronous := true;
                 o_fail_cb := None; o_will_have_more := false |} ]
       else []) ∧
  hello_sent (send_hello capabilities (core (foldl run_gated ss calls))) = true.
Proof.
  intros Hh.
  assert (Hsame : foldl run_gated ss calls = ss).
  { induction calls as [|call calls IH]; [done|].
    cbn [foldl]. by rewrite run_gated_before_hello. }
  rewrite Hsame. split; [done|]. split; [|done].
  unfold send_hello.
  change (ordinary_packets (assign_hello_sent true ?x)) with (ordinary_packets x).
  by rewrite send_ordinary_packets.
Qed.

Lemma gated_calls_before_hello_witness :
  ordinary_packets
    (send_hello (AObj 9)
       (core (foldl run_gated (session_of session_example)
                [RpcReply [AInt 1]; UpdatedDesktopSize 800 600 1600 1200; NotifyClose 7])))
  = [ {| o_parts := [AStr "hello"; AObj 9]; o_synchronous := true;
         o_fail_cb := None; o_will_have_more := false |} ].
Proof.
  exact (proj1 (proj2 (gated_calls_before_hello
    [RpcReply [AInt 1]; UpdatedDesktopSize 800 600 1600 1200; NotifyClose 7]
    (AObj 9) (session_of session_example) eq_refl))).
Defined.

(** ** Desktop size and pointer updates *)

Lemma updated_desktop_size_new (root_w root_h max_w max_h : Z) (ss : Session) :
  hello_sent (core ss) = true →
  randr_notify ss = true →
  desktop_size_server ss ≠ Some (root_w, root_h) →
  updated_desktop_size root_w root_h max_w max_h ss =
    (true,
     assign_core
       (send [AStr "desktop_size"; AInt root_w; AInt root_h; AInt max_w; AInt max_h]
          no_kwargs (core ss))
       (assign_desktop_size_server (Some (root_w, root_h)) ss)).
Proof.
  intros Hh Hr Hne. unfold updated_desktop_size.
  rewrite Hh, Hr, bool_decide_eq_true_2 by done. reflexivity.
Qed.

Lemma updated_desktop_size_same (root_w root_h max_w max_h : Z) (ss : Session) :
  desktop_size_server ss = Some (root_w, root_h) →
  updated_desktop_size root_w root_h max_w max_h ss = (false, ss).
Proof.
  intros Heq. unfold updated_desktop_size.
  rewrite bool_decide_eq_false_2 by (intros H; by apply H).
  rewrite andb_false_r. by destruct (negb _).
Qed.

(** X14. Once hello is sent and randr notifications are negotiated,
    [updated_desktop_size] reports a root size only when it differs from
    the last one reported: it then records it, queues one [desktop_size]
    packet and returns [True]; calling it again with the same root size,
    whatever the maximum size, returns [False] and changes nothing. *)
Theorem updated_desktop_size_once (root_w root_h max_w max_h max_w' max_h' : Z)
    (ss : Session) :
  hello_sent (core ss) = true →
  randr_notify ss = true →
  let r1 := updated_desktop_size root_w root_h max_w max_h ss in
  r1.1 = bool_decide (desktop_size_server ss ≠ Some (root_w, root_h)) ∧
  desktop_size_server r1.2 = Some (root_w, root_h) ∧
  ordinary_packets (core r1.2) =
    ordinary_packets (core ss) ++
      (if r1.1 && attached (core ss)
       then [ {| o_parts := [AStr "desktop_size"; AInt root_w; AInt root_h;
                             AInt max_w; AInt max_h];
                 o_synchronous := true; o_fail_cb := None;
                 o_will_have_more := false |} ]
       else []) ∧
  updated_desktop_size root_w root_h max_w' max_h' r1.2 = (false, r1.2).
Proof.
  intros Hh Hr r1. subst r1.
  destruct (decide (desktop_size_server ss ≠ Some (root_w, root_h))) as [Hne|Heq].
  - rewrite updated_desktop_size_new by done.
    rewrite bool_decide_eq_true_2 by done. cbn [fst snd andb].
    split; [done|]. split; [done|]. split.
    + change (core (assign_core ?x _)) with x.
      by rewrite send_ordinary_packets.
    + by apply updated_desktop_size_same.
  - apply dec_stable in Heq.
    rewrite updated_desktop_size_same by done.
    rewrite bool_decide_eq_false_2 by (intros H; by apply H). cbn [fst snd andb].
    split; [done|]. split; [done|]. split; [by rewrite app_nil_r|].
    by apply updated_desktop_size_same.
Qed.

Lemma updated_desktop_size_once_witness :
  let ss := on_core (send_hello (AObj 9)) (session_of session_example) in
  (updated_desktop_size 800 600 1600 1200 ss).1 = true ∧
  (updated_desktop_size 800 600 3200 2400 (updated_desktop_size 800 600 1600 1200 ss).2).1
  = false.
Proof.
  cbv zeta.
  destruct (updated_desktop_size_once 800 600 1600 1200 3200 2400
              (on_core (send_hello (AObj 9)) (session_of session_example))
              eq_refl eq_refl) as (H1 & _ & _ & H4).
  split; [rewrite H1; reflexivity | by rewrite H4].
Defined.

Lemma update_mouse_new (wid x y rx ry : Z) (ss : Session) :
  mouse_show ss = true →
  mouse_last_position ss ≠ Some (x, y, rx, ry) →
  update_mouse wid x y rx ry ss =
    assign_core
      (send_async [AStr "pointer-position"; AInt wid; AInt x; AInt y; AInt rx; AInt ry]
         no_kwargs (core ss))
      (assign_mouse_last_position (Some (x, y, rx, ry)) ss).
Proof.
  intros Hm Hne. unfold update_mouse. rewrite Hm. cbn [negb].
  destruct (decide (mouse_last_position ss ≠ Some (x, y, rx, ry))); [reflexivity|done].
Qed.

Lemma update_mouse_same (wid x y rx ry : Z) (ss : Session) :
  mouse_last_position ss = Some (x, y, rx, ry) →
  update_mouse wid x y rx ry ss = ss.
Proof.
  intros Heq. unfold update_mouse. destruct (negb _); [done|].
  destruct (decide (mouse_last_position ss ≠ Some (x, y, rx, ry))); [done|reflexivity].
Qed.

(** X15. With the pointer shown, [update_mouse] records the position and
    queues one [pointer-position] packet when the position differs from
    the recorded one; a further call with the same position, for any
    window, changes nothing.  *)
Theorem update_mouse_once (wid wid' x y rx ry : Z) (ss : Session) :
  mouse_show ss = true →
  let ss1 := update_mouse wid x y rx ry ss in
  mouse_last_position ss1 = Some (x, y, rx, ry) ∧
  ordinary_packets (core ss1) =
    ordinary_packets (core ss) ++
      (if bool_decide (mouse_last_position ss ≠ Some (x, y, rx, ry)) && attached (core ss)
       then [ {| o_parts := [AStr "pointer-position"; AInt wid; AInt x; AInt y;
                             AInt rx; AInt ry];
                 o_synchronous := false; o_fail_cb := None;
                 o_will_have_more := true |} ]
       else []) ∧
  update_mouse wid' x y rx ry ss1 = ss1.
Proof.
  intros Hm ss1. subst ss1.
  destruct (decide (mouse_last_position ss ≠ Some (x, y, rx, ry))) as [Hne|Heq].
  - rewrite update_mouse_new by done.
    rewrite bool_decide_eq_true_2 by done. cbn [andb].
    split; [done|]. split.
    + change (core (assign_core ?v _)) with v.
      unfold send_async. by rewrite send_ordinary_packets.
    + by apply update_mouse_same.
  - apply dec_stable in Heq.
    rewrite update_mouse_same by done.
    rewrite bool_decide_eq_false_2 by (intros H; by apply H). cbn [andb].
    split; [done|]. split; [by rewrite app_nil_r|].
    by apply update_mouse_same.
Qed.

Lemma update_mouse_once_witness :
  let ss1 := update_mouse 1 10 20 110 120 (session_of session_example) in
  mouse_last_position ss1 = Some (10, 20, 110, 120) ∧
  update_mouse 2 10 20 110 120 ss1 = ss1.
Proof.
  cbv zeta.
  destruct (update_mouse_once 1 2 10 20 110 120 (session_of session_example) eq_refl)
    as (H1 & _ & H3).
  split; [exact H1 | exact H3].
Defined.

(** ** User activity *)

Lemma send_keeps_timers parts kwargs : keeps_timers (send parts kwargs).
Proof. split; intros s; unfold send; by destruct (protocol s). Qed.

Lemma notify_close_keeps_timers nid : keeps_timers (notify_close nid).
Proof.
  split; intros s; unfold notify_close, send_more;
    destruct (negb (send_notifications s) || suspended s || negb (hello_sent s));
    try reflexivity; apply send_keeps_timers.
Qed.

Lemma schedule_idle_timeout_frame (s : ClientConnection) :
  let s' := schedule_idle_timeout s in
  notification_callbacks s' = notification_callbacks s ∧
  ordinary_packets s' = ordinary_packets s ∧
  send_notifications s' = send_notifications s ∧
  suspended s' = suspended s ∧
  hello_sent s' = hello_sent s ∧
  protocol s' = protocol s.
Proof.
  cbv zeta. unfold schedule_idle_timeout, timeout_add, source_remove.
  destruct (handle_set (idle_timer s)); cbv zeta.
  - change (idle_timeout (assign_idle_timer None ?x)) with (idle_timeout s).
    destruct (0 <? idle_timeout s); by repeat split.
  - destruct (0 <? idle_timeout s); by repeat split.
Qed.

Lemma schedule_idle_grace_timeout_frame (s : ClientConnection) :
  let s' := schedule_idle_grace_timeout s in
  notification_callbacks s' = notification_callbacks s ∧
  ordinary_packets s' = ordinary_packets s ∧
  send_notifications s' = send_notifications s ∧
  suspended s' = suspended s ∧
  hello_sent s' = hello_sent s ∧
  protocol s' = protocol s.
Proof.
  cbv zeta. unfold schedule_idle_grace_timeout, timeout_add, source_remove.
  destruct (handle_set (idle_grace_timer s)); cbv zeta.
  - change (idle_timeout (assign_idle_grace_timer None ?x)) with (idle_timeout s).
    change (is_closed (assign_idle_grace_timer None ?x)) with (is_closed s).
    destruct ((0 <? idle_timeout s) && negb (is_closed s)); by repeat split.
  - destruct ((0 <? idle_timeout s) && negb (is_closed s)); by repeat split.
Qed.

(** [user_event] on a session that is not idle, where [no_idle] is not
    called. *)
Lemma user_event_active (nid : Z) (no_idle : Session → Session) (now : Z) (ss : Session) :
  idle ss = false →
  let s2 := schedule_idle_timeout (schedule_idle_grace_timeout (core ss)) in
  let ss' := user_event nid no_idle now ss in
  core ss' =
    match notification_callbacks s2 !! nid with
    | Some _ =>
        notify_close nid
          (assign_notification_callbacks (delete nid (notification_callbacks s2)) s2)
    | None => s2
    end ∧
  last_user_event ss' = now ∧
  idle ss' = false.
Proof.
  intros Hidle. destruct ss as [c i l r d w cs sd ms mp].
  change (i = false) in Hidle. subst i.
  cbv [user_event on_core assign_core assign_last_user_event core idle last_user_event].
  destruct (notification_callbacks _ !! nid); by repeat split.
Qed.

Lemma two_timers_left (l : list Timer) (next : Z) (idle grace : option Z) (t : Timer) :
  timers_view_ok l next idle grace →
  timer_id t = next →
  (if handle_set idle
   then filter (λ t, timer_id t ≠ default 0 idle)
          ((if handle_set grace
            then filter (λ t, timer_id t ≠ default 0 grace) l
            else l) ++ [t])
   else (if handle_set grace
         then filter (λ t, timer_id t ≠ default 0 grace) l
         else l) ++ [t])
  = [t].
Proof.
  intros Hok Ht.
  pose proof Hok as (_ & Hr & _ & Hi & Hg).
  destruct (timers_view_handles _ _ _ _ Hok) as [Hri Hrg].
  destruct (handle_set_ok _ _ _ _ Hok) as [-> ->].
  assert (Hold : ∀ u, u ∈ l →
            match timer_cb u with
            | IdleTimedout => idle = Some (timer_id u)
            | IdleGraceTimedout => grace = Some (timer_id u)
            end).
  { intros u Hu. destruct (timer_cb u) eqn:Hcb.
    - assert (Hin : timer_id u ∈ ids_for IdleTimedout l) by (apply ids_for_elem; eauto).
      rewrite Hi in Hin. destruct idle; [|by apply not_elem_of_nil in Hin].
      apply list_elem_of_singleton in Hin. by subst.
    - assert (Hin : timer_id u ∈ ids_for IdleGraceTimedout l) by (apply ids_for_elem; eauto).
      rewrite Hg in Hin. destruct grace; [|by apply not_elem_of_nil in Hin].
      apply list_elem_of_singleton in Hin. by subst. }
  set (L := if bool_decide (is_Some grace)
            then filter (λ t, timer_id t ≠ default 0 grace) l else l).
  assert (HL : ∀ u, u ∈ L → u ∈ l ∧ grace ≠ Some (timer_id u)).
  { subst L. intros u Hu. destruct grace as [g|].
    - rewrite bool_decide_eq_true_2 in Hu by eauto.
      apply list_elem_of_filter in Hu as [Hne Hu]. split; [done|].
      intros [= ->]. by apply Hne.
    - by rewrite bool_decide_eq_false_2 in Hu by (by intros [? ?]). }
  destruct idle as [h|].
  - rewrite bool_decide_eq_true_2 by eauto. rewrite filter_app.
    assert (Hnil : filter (λ t, timer_id t ≠ default 0 (Some h)) L = []).
    { apply elem_of_nil_inv. intros u [Hne Hu]%list_elem_of_filter.
      destruct (HL u Hu) as [Hin Hng]. specialize (Hold u Hin).
      destruct (timer_cb u); [|done]. injection Hold as ->. by apply Hne. }
    rewrite Hnil, filter_cons, filter_nil.
    specialize (Hri h eq_refl). by rewrite decide_True by (cbn; lia).
  - rewrite bool_decide_eq_false_2 by (by intros [? ?]).
    assert (Hnil : L = []).
    { apply elem_of_nil_inv. intros u Hu.
      destruct (HL u Hu) as [Hin Hng]. specialize (Hold u Hin).
      by destruct (timer_cb u). }
    by rewrite Hnil.
Qed.

Section UserEventTheorems.
Variable XPRA_IDLE_NOTIFICATION_ID : Z.
Variable no_idle : Session → Session.

(** X16. On a session that is not idle, [user_event] drops the callbacks
    registered for the idle notification and queues one [notify_close]
    for it exactly when there was such an entry, notifications are
    enabled, the session is not suspended, hello was sent and a transport
    is attached; a second [user_event] queues nothing more. *)
Theorem user_event_closes_idle_notification (now now' : Z) (ss : Session) :
  idle ss = false →
  let s := core ss in
  let ss' := user_event XPRA_IDLE_NOTIFICATION_ID no_idle now ss in
  notification_callbacks (core ss') =
    delete XPRA_IDLE_NOTIFICATION_ID (notification_callbacks s) ∧
  ordinary_packets (core ss') =
    ordinary_packets s ++
      (if bool_decide (is_Some (notification_callbacks s !! XPRA_IDLE_NOTIFICATION_ID))
          && send_notifications s && negb (suspended s) && hello_sent s && attached s
       then [notify_close_entry XPRA_IDLE_NOTIFICATION_ID]
       else []) ∧
  ordinary_packets (core (user_event XPRA_IDLE_NOTIFICATION_ID no_idle now' ss')) =
    ordinary_packets (core ss').
Proof.
  intros Hidle s ss'.
  assert (Hone : ∀ now ss, idle ss = false →
    let s := core ss in
    let ss' := user_event XPRA_IDLE_NOTIFICATION_ID no_idle now ss in
    idle ss' = false ∧
    notification_callbacks (core ss') =
      delete XPRA_IDLE_NOTIFICATION_ID (notification_callbacks s) ∧
    ordinary_packets (core ss') =
      ordinary_packets s ++
        (if bool_decide (is_Some (notification_callbacks s !! XPRA_IDLE_NOTIFICATION_ID))
            && send_notifications s && negb (suspended s) && hello_sent s && attached s
         then [notify_close_entry XPRA_IDLE_NOTIFICATION_ID]
         else [])).
  { clear. intros now ss Hidle. cbv zeta.
    destruct (user_event_active XPRA_IDLE_NOTIFICATION_ID no_idle now ss Hidle)
      as (-> & _ & ->).
    split; [done|].
    destruct (schedule_idle_timeout_frame (schedule_idle_grace_timeout (core ss)))
      as (Hn & Hq & Hsn & Hsu & Hh & Hp).
    destruct (schedule_idle_grace_timeout_frame (core ss))
      as (Hn' & Hq' & Hsn' & Hsu' & Hh' & Hp').
    rewrite Hn' in Hn. rewrite Hq' in Hq. rewrite Hsn' in Hsn. rewrite Hsu' in Hsu.
    rewrite Hh' in Hh. rewrite Hp' in Hp.
    set (s2 := schedule_idle_timeout (schedule_idle_grace_timeout (core ss))) in *.
    rewrite Hn.
    destruct (notification_callbacks (core ss) !! XPRA_IDLE_NOTIFICATION_ID) as [cbs|] eqn:Hl.
    - rewrite bool_decide_eq_true_2 by eauto. cbn [andb].
      unfold notify_close.
      change (send_notifications (assign_notification_callbacks _ ?x))
        with (send_notifications x).
      change (suspended (assign_notification_callbacks _ ?x)) with (suspended x).
      change (hello_sent (assign_notification_callbacks _ ?x)) with (hello_sent x).
      rewrite Hsn, Hsu, Hh.
      unfold send_more, attached.
      destruct (send_notifications (core ss)), (suspended (core ss)),
        (hello_sent (core ss)); cbn [negb orb andb];
        (split;
         [ by rewrite ?send_notification_callbacks
         | rewrite ?send_ordinary_packets; unfold attached;
           change (ordinary_packets (assign_notification_callbacks _ ?x))
             with (ordinary_packets x);
           change (protocol (assign_notification_callbacks _ ?x)) with (protocol x);
           by rewrite Hq, ?Hp, ?app_nil_r ]).
    - rewrite bool_decide_eq_false_2 by (by intros [? ?]). cbn [andb].
      rewrite Hn, Hq, app_nil_r. split; [|done].
      symmetry. by apply delete_id. }
  destruct (Hone now ss Hidle) as (Hidle' & Hcb & Hq). fold s ss' in Hidle', Hcb, Hq.
  split; [done|]. split; [done|].
  destruct (Hone now' ss' Hidle') as (_ & _ & ->).
  rewrite Hcb, lookup_delete_eq.
  rewrite bool_decide_eq_false_2 by (by intros [? ?]). cbn [andb].
  by rewrite app_nil_r.
Qed.

(** X17. On an open session that is not idle, with [idle_timeout > 0]
    and consistent timers, [user_event] records the time of the event,
    cancels whatever idle and grace sources were pending and leaves
    exactly two new ones: the grace timer due in
    [max(0, (idle_timeout - idle_grace_duration)*1000)] ms and the idle
    timer due in [idle_timeout*1000] ms. *)
Theorem user_event_rearms (now : Z) (ss : Session) :
  idle ss = false →
  timers_ok (core ss) →
  is_closed (core ss) = false →
  0 < idle_timeout (core ss) →
  let s := core ss in
  let ss' := user_event XPRA_IDLE_NOTIFICATION_ID no_idle now ss in
  last_user_event ss' = now ∧
  main_loop (core ss') =
    [ {| timer_id := next_source_id s;
         timer_delay := Z.max 0 ((idle_timeout s - idle_grace_duration s) * 1000);
         timer_cb := IdleGraceTimedout |};
      {| timer_id := next_source_id s + 1;
         timer_delay := idle_timeout s * 1000;
         timer_cb := IdleTimedout |} ] ∧
  idle_grace_timer (core ss') = Some (next_source_id s) ∧
  idle_timer (core ss') = Some (next_source_id s + 1).
Proof.
  intros Hidle Hok Hopen Hpos s ss'. subst s ss'.
  destruct (user_event_active XPRA_IDLE_NOTIFICATION_ID no_idle now ss Hidle)
    as (-> & -> & _).
  split; [done|].
  set (s1 := schedule_idle_grace_timeout (core ss)).
  set (s2 := schedule_idle_timeout s1).
  assert (Hframe : ∀ s', main_loop s' = main_loop s2 → idle_grace_timer s' = idle_grace_timer s2 →
                         idle_timer s' = idle_timer s2 →
            main_loop s' =
              [ {| timer_id := next_source_id (core ss);
                   timer_delay :=
                     Z.max 0 ((idle_timeout (core ss) - idle_grace_duration (core ss)) * 1000);
                   timer_cb := IdleGraceTimedout |};
                {| timer_id := next_source_id (core ss) + 1;
                   timer_delay := idle_timeout (core ss) * 1000;
                   timer_cb := IdleTimedout |} ] ∧
            idle_grace_timer s' = Some (next_source_id (core ss)) ∧
            idle_timer s' = Some (next_source_id (core ss) + 1)).
  { intros s' -> -> ->. subst s2.
    destruct (schedule_idle_timeout_view s1) as (-> & -> & _ & -> & _).
    subst s1.
    destruct (schedule_idle_grace_timeout_view (core ss)) as (-> & -> & -> & -> & -> & _).
    rewrite Hopen, (proj2 (Z.ltb_lt _ _) Hpos). cbn [andb negb].
    split; [|done].
    by erewrite two_timers_left by (done || reflexivity). }
  destruct (notification_callbacks s2 !! XPRA_IDLE_NOTIFICATION_ID).
  - apply Hframe.
    + by rewrite (kt_main_loop _ (notify_close_keeps_timers _)).
    + by rewrite (kt_idle_grace_timer _ (notify_close_keeps_timers _)).
    + by rewrite (kt_idle_timer _ (notify_close_keeps_timers _)).
  - by apply Hframe.
Qed.
End UserEventTheorems.

Lemma user_event_closes_idle_notification_witness :
  let ss' := user_event 7 (λ ss, ss) 100 idle_notified_example in
  notification_callbacks (core ss') = delete 7 (notification_callbacks (core idle_notified_example)) ∧
  ordinary_packets (core ss') =
    ordinary_packets (core idle_notified_example) ++ [notify_close_entry 7] ∧
  ordinary_packets (core (user_event 7 (λ ss, ss) 200 ss')) = ordinary_packets (core ss').
Proof.
  exact (user_event_closes_idle_notification 7 (λ ss, ss) 100 200
           idle_notified_example eq_refl).
Defined.

Lemma user_event_rearms_witness :
  let ss' := user_event 7 (λ ss, ss) 100 (session_of session_example) in
  last_user_event ss' = 100 ∧
  main_loop (core ss') =
    [ {| timer_id := 3; timer_delay := 50000; timer_cb := IdleGraceTimedout |};
      {| timer_id := 4; timer_delay := 60000; timer_cb := IdleTimedout |} ] ∧
  idle_grace_timer (core ss') = Some 3 ∧
  idle_timer (core ss') = Some 4.
Proof.
  exact (user_event_rearms 7 (λ ss, ss) 100 (session_of session_example)
           eq_refl (init_timers_ok _ _ _ _ _) eq_refl eq_refl).
Defined.

(** ** Audio and video synchronisation *)

Lemma set_av_sync_delay_twice (a b : Z) (m : gmap Z WS.t) :
  WS.set_av_sync_delay a <$> (WS.set_av_sync_delay b <$> m) = WS.set_av_sync_delay a <$> m.
Proof.
  rewrite <- map_fmap_compose. apply map_fmap_ext. intros k ws _. by destruct ws.
Qed.

(** X18. While the encoder latency reads [latency], the client's delay
    and the delta may be set in either order: the session then holds
    both values, the total is [min(1000, max(0, delay + delta + latency))]
    with av-sync enabled and 0 without, and each window source has been
    given that total (and no other attribute of it is changed). *)
Theorem set_av_sync_any_order (get_sound_source_latency : ClientConnection → Z)
    (latency delay delta : Z) (s : ClientConnection) :
  (∀ s', get_sound_source_latency s' = latency) →
  let total := if av_sync s then clamp (delay + delta + latency) 0 1000 else 0 in
  let s1 := set_av_sync_delta get_sound_source_latency delta
              (set_av_sync_delay get_sound_source_latency delay s) in
  let s2 := set_av_sync_delay get_sound_source_latency delay
              (set_av_sync_delta get_sound_source_latency delta s) in
  (av_sync_delay s1, av_sync_delta s1) = (delay, delta) ∧
  av_sync_delay_total s1 = total ∧
  window_sources s1 = WS.set_av_sync_delay total <$> window_sources s ∧
  (av_sync_delay s2, av_sync_delta s2, av_sync_delay_total s2, window_sources s2)
  = (av_sync_delay s1, av_sync_delta s1, av_sync_delay_total s1, window_sources s1).
Proof.
  intros Hlat total s1 s2. subst total s1 s2.
  unfold set_av_sync_delta, set_av_sync_delay, update_av_sync_delay_total.
  rewrite !Hlat.
  change (av_sync (assign_av_sync_delay delay s)) with (av_sync s).
  change (av_sync (assign_av_sync_delta delta s)) with (av_sync s).
  destruct (av_sync s) eqn:Hav; cbv zeta.
  - change (av_sync (assign_av_sync_delta _ (assign_window_sources _
              (assign_av_sync_delay_total _ (assign_av_sync_delay _ s))))) with (av_sync s).
    change (av_sync (assign_av_sync_delay _ (assign_window_sources _
              (assign_av_sync_delay_total _ (assign_av_sync_delta _ s))))) with (av_sync s).
    rewrite Hav.
    split; [reflexivity|]. split; [reflexivity|].
    change (window_sources (assign_window_sources ?m _)) with m.
    change (window_sources (assign_av_sync_delay_total _ (assign_av_sync_delta _
              (assign_window_sources ?m _)))) with m.
    change (window_sources (assign_av_sync_delay_total _ (assign_av_sync_delay _
              (assign_window_sources ?m _)))) with m.
    rewrite !set_av_sync_delay_twice.
    split; [reflexivity|].
    by rewrite (Z.add_comm delay delta) || reflexivity.
  - change (av_sync (assign_av_sync_delta _ (assign_window_sources _
              (assign_av_sync_delay_total _ (assign_av_sync_delay _ s))))) with (av_sync s).
    change (av_sync (assign_av_sync_delay _ (assign_window_sources _
              (assign_av_sync_delay_total _ (assign_av_sync_delta _ s))))) with (av_sync s).
    rewrite Hav.
    split; [reflexivity|]. split; [reflexivity|].
    change (window_sources (assign_window_sources ?m _)) with m.
    change (window_sources (assign_av_sync_delay_total _ (assign_av_sync_delta _
              (assign_window_sources ?m _)))) with m.
    change (window_sources (assign_av_sync_delay_total _ (assign_av_sync_delay _
              (assign_window_sources ?m _)))) with m.
    rewrite !set_av_sync_delay_twice.
    split; [reflexivity|].
    by rewrite (Z.add_comm delay delta) || reflexivity.
Qed.

Lemma set_av_sync_any_order_witness :
  let s := assign_window_sources (<[1 := window_example false (10, 10)]> ∅)
             session_example in
  av_sync_delay_total
    (set_av_sync_delta (λ _, 20) (-50) (set_av_sync_delay (λ _, 20) 130 s)) = 100.
Proof.
  exact (proj1 (proj2 (set_av_sync_any_order (λ _, 20) 20 130 (-50)
    (assign_window_sources (<[1 := window_example false (10, 10)]> ∅) session_example)
    (λ _, eq_refl)))).
Defined.
